(** * IoTDB MCP server: a shallow embedding of [server.py]

    The development follows [src/iotdb_mcp_server/server.py]:

    - [Str] holds the methods of Python's [str] that the handlers call
      ([strip], [upper], [startswith], [replace], [split], [join]);
    - [Handler] is the state-and-exception monad in which the handlers run:
      the state is the session pool with its history, and an exception
      leaves the state as it was when it was raised;
    - the handlers of [DatabaseServer] follow: [list_resources],
      [read_resource], [get_prompt] and [call_tool];
    - [SecurityGate] models [utils.security_gate], which the server imports
      and which is not among the sources, from the design's description.

    Text is modelled by Rocq's [string], which holds the UTF-8 encoding of
    the Python [str]: a character of ASCII is one byte, and no byte of
    another character is a byte of ASCII, so that [split], [join],
    [startswith] and [replace] on the bytes are Python's on the characters.
    [strip] removes the whitespace characters of Unicode, and [upper] takes
    the uppercase of the characters outside ASCII from Unicode's case table.

    What the handlers get from outside the sources is a parameter: the
    answers of the driver, the verdict of the gate, [str()] of a field
    value, Unicode's case table, and the validation of the URL of a
    [Resource].  Logging is left out. *)

From Stdlib Require Import Ascii String List Arith Lia Bool DecimalString.
From stdpp Require Import base option list strings gmap.

(** Text concatenation unfolds on a constructor, as list concatenation does. *)
#[local] Arguments String.append !_ _ / : simpl nomatch.

(** ** Python's [str] methods used by the server *)

Module Str.

(** Line feed, the character written [\n] in the source. *)
Definition LF : ascii := "010"%char.
Definition NL : string := String LF "".

(** The text with the given bytes. *)
Definition bytes (codes : list nat) : string :=
  string_of_list_ascii (List.map ascii_of_nat codes).

(** A byte of a character of ASCII, and a byte that continues a character
    of several bytes. *)
Definition is_ascii (c : ascii) : bool := nat_of_ascii c <? 128.
Definition is_continuation (c : ascii) : bool :=
  let n := nat_of_ascii c in (128 <=? n) && (n <? 192).

(** [s.startswith(p)] *)
Fixpoint startswith (s p : string) {struct p} : bool :=
  match p, s with
  | EmptyString, _ => true
  | String _ _, EmptyString => false
  | String a p', String b s' => if Ascii.eqb a b then startswith s' p' else false
  end.

(** [s[::-1]] *)
Fixpoint rev (s : string) : string :=
  match s with
  | EmptyString => EmptyString
  | String c s' => rev s' +:+ String c EmptyString
  end.

(** The characters [c] with [c.isspace()]: TAB, LF, VT, FF, CR, FS, GS, RS,
    US and SPACE of ASCII, then U+0085, U+00A0, U+1680, U+2000 to U+200A,
    U+2028, U+2029, U+202F, U+205F and U+3000. *)
Definition whitespace : list string :=
  Eval cbv in
    List.map bytes
      [ [9]; [10]; [11]; [12]; [13]; [28]; [29]; [30]; [31]; [32];
        [194; 133]; [194; 160]; [225; 154; 128];
        [226; 128; 128]; [226; 128; 129]; [226; 128; 130]; [226; 128; 131];
        [226; 128; 132]; [226; 128; 133]; [226; 128; 134]; [226; 128; 135];
        [226; 128; 136]; [226; 128; 137]; [226; 128; 138];
        [226; 128; 168]; [226; 128; 169]; [226; 128; 175];
        [226; 129; 159]; [227; 128; 128] ].

(** The same characters read from their last byte, for [rstrip]. *)
Definition whitespace_rev : list string :=
  Eval cbv in List.map rev whitespace.

(** The character of [chars] that [s] starts with, if there is one. *)
Definition leading (chars : list string) (s : string) : option string :=
  List.find (startswith s) chars.

(** [s] without the characters of [chars] it starts with.  [skip] counts
    the bytes of such a character that are still to be passed over. *)
Fixpoint strip_from (chars : list string) (skip : nat) (s : string) : string :=
  match s with
  | EmptyString => EmptyString
  | String _ s' =>
      match skip with
      | S k => strip_from chars k s'
      | O =>
          match leading chars s with
          | Some w => strip_from chars (String.length w - 1) s'
          | None => s
          end
      end
  end.

(** [s.lstrip()] *)
Definition lstrip (s : string) : string := strip_from whitespace O s.

(** [s.rstrip()] *)
Definition rstrip (s : string) : string :=
  rev (strip_from whitespace_rev O (rev s)).

(** [s.strip()] *)
Definition strip (s : string) : string := rstrip (lstrip s).

Definition islower (c : ascii) : bool :=
  let n := nat_of_ascii c in (97 <=? n) && (n <=? 122).

(** [c.upper()] for a character of ASCII. *)
Definition upper_char (c : ascii) : ascii :=
  if islower c then ascii_of_nat (nat_of_ascii c - 32) else c.

(** [s.upper()]: every character gives way to its uppercase, which for a
    character outside ASCII is a text that [unicode_upper], Unicode's case
    table, gives.  [pending] holds the bytes read of such a character. *)
Definition upper_pending (unicode_upper : string -> string) (pending : string)
  : string :=
  match pending with
  | EmptyString => EmptyString
  | _ => unicode_upper pending
  end.

Fixpoint upper_from (unicode_upper : string -> string) (pending s : string)
  : string :=
  match s with
  | EmptyString => upper_pending unicode_upper pending
  | String c s' =>
      if is_ascii c
      then upper_pending unicode_upper pending
           +:+ String (upper_char c) (upper_from unicode_upper EmptyString s')
      else if is_continuation c
      then upper_from unicode_upper (pending +:+ String c EmptyString) s'
      else upper_pending unicode_upper pending
           +:+ upper_from unicode_upper (String c EmptyString) s'
  end.

Definition upper (unicode_upper : string -> string) (s : string) : string :=
  upper_from unicode_upper EmptyString s.

(** [s[n:]] for [0 <= n]. *)
Fixpoint drop (n : nat) (s : string) : string :=
  match n, s with
  | O, _ => s
  | S _, EmptyString => EmptyString
  | S n', String _ s' => drop n' s'
  end.

(** [sep.join(l)] *)
Fixpoint join (sep : string) (l : list string) : string :=
  match l with
  | [] => ""
  | [x] => x
  | x :: l' => x +:+ sep +:+ join sep l'
  end.

(** [s.split(c)] for a separator [c] of one character of ASCII: the pieces
    of [s] between the occurrences of [c]; never the empty list. *)
Fixpoint split (c : ascii) (s : string) : list string :=
  match s with
  | EmptyString => [""]
  | String a s' =>
      if Ascii.eqb a c then "" :: split c s'
      else match split c s' with
           | [] => [String a ""]
           | w :: ws => String a w :: ws
           end
  end.

(** [s.replace(old, new)]: the occurrences of [old] are found from left
    to right and do not overlap.  [skip] counts the bytes of a match that
    are still to be passed over.  For an empty [old], Python puts [new]
    before every character and at the end. *)
Fixpoint replace_from (skip : nat) (old new s : string) : string :=
  match s with
  | EmptyString => EmptyString
  | String c s' =>
      match skip with
      | S k => replace_from k old new s'
      | O =>
          if startswith s old
          then new +:+ replace_from (String.length old - 1) old new s'
          else String c (replace_from O old new s')
      end
  end.

Fixpoint intersperse (new s : string) : string :=
  match s with
  | EmptyString => new
  | String c s' =>
      (if is_continuation c then EmptyString else new)
      +:+ String c (intersperse new s')
  end.

Definition replace (old new s : string) : string :=
  match old with
  | EmptyString => intersperse new s
  | _ => replace_from O old new s
  end.

End Str.

(** ** The handlers' effects: the session pool and exceptions *)

Module Handler.

(** The exceptions a handler can end with: the [ValueError]s the
    handlers raise themselves, the [IndexError] of [get_fields()[0]] on
    a row without fields, the [ValidationError] of a [Resource] whose URI
    is not a URL, and whatever the driver raises. *)
Inductive exn : Type :=
| ValueError (msg : string)
| IndexError
| ValidationError (msg : string)
| DriverError (msg : string).

Inductive outcome (A : Type) : Type :=
| Return (a : A)
| Raise (e : exn).
Arguments Return {A} a.
Arguments Raise {A} e.

(** What happens to the pool, in order. *)
Inductive event : Type :=
| GetSession (sid : nat)
| Execute (sid : nat) (sql : string)
| Close (sid : nat).

(** [TableSessionPool]: the sessions handed out and not yet given back,
    the next session to hand out, and the history of the pool. *)
Record PoolState : Type := {
  in_use : list nat;
  next_session : nat;
  log : list event;
}.

Definition M (A : Type) : Type := PoolState -> outcome A * PoolState.

Definition ret {A} (a : A) : M A := fun st => (Return a, st).
Definition raise {A} (e : exn) : M A := fun st => (Raise e, st).
Definition bind {A B} (m : M A) (k : A -> M B) : M B :=
  fun st =>
    match m st with
    | (Return a, st') => k a st'
    | (Raise e, st') => (Raise e, st')
    end.
Definition lift {A} (o : outcome A) : M A := fun st => (o, st).

(** [self.session_pool.get_session()], for a pool that has a session to
    hand out: the handlers are followed from the session they are given,
    and a pool that has none left is not modelled. *)
Definition get_session : M nat :=
  fun st =>
    let sid := next_session st in
    (Return sid,
     {| in_use := sid :: in_use st;
        next_session := S sid;
        log := log st ++ [GetSession sid] |}).

(** [table_session.close()]: the session goes back to the pool. *)
Definition close (sid : nat) : M unit :=
  fun st =>
    (Return tt,
     {| in_use := List.remove Nat.eq_dec sid (in_use st);
        next_session := next_session st;
        log := log st ++ [Close sid] |}).

Definition is_get_session (e : event) : bool :=
  match e with GetSession _ => true | _ => false end.
Definition is_close_of (sid : nat) (e : event) : bool :=
  match e with Close s => Nat.eqb s sid | _ => false end.

(** How many sessions were acquired, and how often session [sid] was
    released, in a history. *)
Definition acquisitions (l : list event) : nat :=
  List.length (List.filter is_get_session l).
Definition releases (sid : nat) (l : list event) : nat :=
  List.length (List.filter (is_close_of sid) l).

Definition initial : PoolState :=
  {| in_use := []; next_session := 0; log := [] |}.

End Handler.

Import Handler.

Notation "'do' x <- m ; k" := (Handler.bind m (fun x => k))
  (at level 10, x name, m at level 100, k at level 200).
Notation "'run' m ; k" := (Handler.bind m (fun _ => k))
  (at level 10, m at level 100, k at level 200).

(** ** The handlers of [DatabaseServer] *)

(** [mcp.types.TextContent] *)
Record TextContent : Type := { tc_type : string; tc_text : string }.

(** [mcp.types.Resource]; [res_uri] is the text of the URL that the
    resource holds. *)
Record Resource : Type := {
  res_uri : string;
  res_name : string;
  res_mimeType : string;
  res_description : string;
}.

(** [mcp.types.PromptMessage] and [mcp.types.GetPromptResult] *)
Record PromptMessage : Type := { pm_role : string; pm_content : TextContent }.
Record GetPromptResult : Type := {
  gp_description : string;
  gp_messages : list PromptMessage;
}.

(** An entry of [self.templates]: [template["template"]] and
    [template["config"]["description"]]. *)
Record Template : Type := {
  tpl_template : string;
  tpl_description : string;
}.

(** The fields of [self] that the handlers read: [db_config["database"]]
    and [templates]. *)
Record DatabaseServer : Type := {
  database : string;
  templates : gmap string Template;
}.

(** The cursor [execute_query_statement] returns: [get_column_names()] and
    the rows that [has_next()]/[next()] go through, each with its
    [get_fields()]. *)
Record ResultSet (Field : Type) : Type := {
  column_names : list string;
  rows : list (list Field);
}.
Arguments column_names {Field} _.
Arguments rows {Field} _.

Definition RES_PREFIX : string := "iotdb://".
Definition RESULTS_LIMIT : nat := 100.

(** [str(n)] for a natural number. *)
Definition str_of_nat (n : nat) : string :=
  NilEmpty.string_of_uint (Nat.to_uint n).

Definition text_content (s : string) : TextContent :=
  {| tc_type := "text"; tc_text := s |}.

Section Gateway.

(** The driver's field values. *)
Context {Field : Type}.

(** Unicode's case table: the uppercase of a character outside ASCII. *)
Variable unicode_upper : string -> string.

(** The validation of [Resource.uri], an [AnyUrl] of pydantic: the text
    of the URL that the resource holds for a text, or a
    [ValidationError]. *)
Variable any_url : string -> outcome string.

(** [str()] of a field value. *)
Variable str : Field -> string.

(** [utils.security_gate]: the verdict [is_dangerous] and its reason. *)
Variable security_gate : string -> bool * string.

(** What the database answers to a statement: a cursor, or an exception
    of the driver. *)
Variable driver : string -> outcome (ResultSet Field).

(** [table_session.execute_query_statement(sql)] *)
Definition execute_query_statement (sid : nat) (sql : string)
  : M (ResultSet Field) :=
  fun st =>
    (driver sql,
     {| in_use := in_use st;
        next_session := next_session st;
        log := log st ++ [Execute sid sql] |}).

(** [while res.has_next(): result.append(str(res.next().get_fields()[0]))] *)
Fixpoint first_fields_loop (result : list string) (rs : list (list Field))
  : outcome (list string) :=
  match rs with
  | [] => Return result
  | row :: rest =>
      match row with
      | [] => Raise IndexError
      | f :: _ => first_fields_loop (result ++ [str f]) rest
      end
  end.

(** [while res.has_next(): result.append(",".join(map(str, res.next().get_fields())))] *)
Fixpoint rows_loop (result : list string) (rs : list (list Field))
  : list string :=
  match rs with
  | [] => result
  | row :: rest => rows_loop (result ++ [Str.join "," (List.map str row)]) rest
  end.

(** [f"{RES_PREFIX}{table}/data"] *)
Definition resource_uri (table : string) : string :=
  RES_PREFIX +:+ table +:+ "/data".

(** The resource of a table, once its URI is validated as [uri]. *)
Definition resource_with (uri table : string) : Resource :=
  {| res_uri := uri;
     res_name := "Table: " +:+ table;
     res_mimeType := "text/plain";
     res_description := "Data in table: " +:+ table |}.

(** [Resource(uri=..., name=..., mimeType=..., description=...)] for a
    table: the URI is validated. *)
Definition resource_of_table (table : string) : outcome Resource :=
  match any_url (resource_uri table) with
  | Return uri => Return (resource_with uri table)
  | Raise e => Raise e
  end.

(** [while tables.has_next(): table = str(tables.next().get_fields()[0]);
    resources.append(Resource(...))] *)
Fixpoint resources_loop (resources : list Resource) (rs : list (list Field))
  : outcome (list Resource) :=
  match rs with
  | [] => Return resources
  | row :: rest =>
      match row with
      | [] => Raise IndexError
      | f :: _ =>
          match resource_of_table (str f) with
          | Return resource => resources_loop (resources ++ [resource]) rest
          | Raise e => Raise e
          end
      end
  end.

(** [list_resources] *)
Definition list_resources (self : DatabaseServer) : M (list Resource) :=
  do table_session <- get_session;
  do tables <- execute_query_statement table_session "SHOW TABLES";
  do resources <- lift (resources_loop [] (rows tables));
  run close table_session;
  ret resources.

(** [read_resource], from [uri_str = str(uri)] on. *)
Definition read_resource (self : DatabaseServer) (uri_str : string) : M string :=
  if negb (Str.startswith uri_str RES_PREFIX)
  then raise (ValueError ("Invalid URI scheme: " +:+ uri_str))
  else
    let parts := Str.split "/" (Str.drop (String.length RES_PREFIX) uri_str) in
    match parts with
    | [] => raise IndexError
    | table :: _ =>
        do table_session <- get_session;
        do res <- execute_query_statement table_session
                    ("SELECT * FROM " +:+ table +:+ " LIMIT " +:+ str_of_nat RESULTS_LIMIT);
        let columns := column_names res in
        let result := rows_loop [] (rows res) in
        run close table_session;
        ret (Str.join Str.NL (Str.join "," columns :: result))
    end.

Definition placeholder (key : string) : string := "{{ " +:+ key +:+ " }}".

(** [for key, value in arguments.items(): formatted_template = formatted_template.replace(...)] *)
Fixpoint substitute (items : list (string * string)) (formatted_template : string)
  : string :=
  match items with
  | [] => formatted_template
  | (key, value) :: rest =>
      substitute rest (Str.replace (placeholder key) value formatted_template)
  end.

(** [get_prompt].  [arguments] is [None] or a dict, given by its items in
    the order in which the dict yields them. *)
Definition get_prompt (self : DatabaseServer) (name : string)
    (arguments : option (list (string * string))) : outcome GetPromptResult :=
  match templates self !! name with
  | None => Raise (ValueError ("Unknown template: " +:+ name))
  | Some template =>
      let formatted_template :=
        match arguments with
        | None | Some [] => tpl_template template
        | Some items => substitute items (tpl_template template)
        end in
      Return {| gp_description := tpl_description template;
                gp_messages :=
                  [ {| pm_role := "user";
                       pm_content := text_content formatted_template |} ] |}
  end.

(** [call_tool].  [arguments] is the dict of the tool's arguments; the
    tool's schema declares [query] a string. *)
Definition call_tool (self : DatabaseServer) (name : string)
    (arguments : gmap string string) : M (list TextContent) :=
  if negb (String.eqb name "execute_sql")
  then raise (ValueError ("Unknown tool: " +:+ name))
  else
    match arguments !! "query" with
    | None | Some EmptyString => raise (ValueError "Query is required")
    | Some query =>
        let '(is_dangerous, reason) := security_gate query in
        if is_dangerous
        then ret [text_content ("Error: Contain dangerous operations, reason:" +:+ reason)]
        else
          do table_session <- get_session;
          do res <- execute_query_statement table_session query;
          let stmt := Str.upper unicode_upper (Str.strip query) in
          if Str.startswith stmt "SHOW TABLES" then
            do result <- lift (first_fields_loop ["Tables_in_" +:+ database self] (rows res));
            run close table_session;
            ret [text_content (Str.join Str.NL result)]
          else if Str.startswith stmt "SELECT" || Str.startswith stmt "DESCRIBE" then
            let columns := column_names res in
            let result := rows_loop [] (rows res) in
            run close table_session;
            ret [text_content (Str.join Str.NL (Str.join "," columns :: result))]
          else
            ret [text_content "Error executing query"]
    end.

End Gateway.

(** ** The security gate *)

Module SecurityGate.

(** Modelled from the spec: the decision of [utils.security_gate], which
    [server.py] imports and calls but which is not among the sources: a
    verdict, with a reason when the query is rejected. *)
Inductive GateDecision : Type :=
| Approved
| Rejected (reason : string).

(** Modelled from the spec: the denylist of the gate. *)
Definition denylist : list string :=
  ["DROP"; "DELETE"; "TRUNCATE"; "ALTER"; "UPDATE"; "INSERT"; "GRANT";
   "REVOKE"; "CREATE"].

Definition QUOTE : ascii := "'"%char.
Definition SEMICOLON : ascii := ";"%char.

(** Modelled from the spec: a keyword stands as a token of its own, not
    inside an identifier; the characters of identifiers and keywords are
    the letters, the digits and the underscore, every other character
    (whitespace, punctuation) separates tokens. *)
Definition is_word_char (c : ascii) : bool :=
  let n := nat_of_ascii c in
  ((48 <=? n) && (n <=? 57)) || ((65 <=? n) && (n <=? 90))
  || (n =? 95) || ((97 <=? n) && (n <=? 122)).

Inductive token : Type :=
| Word (w : string)
| Separator.

Definition flush (cur : string) : list token :=
  match cur with
  | EmptyString => []
  | _ => [Word cur]
  end.

(** Modelled from the spec: the tokens of a text outside the spans of
    string literals, in one pass.  A string literal is a span between
    single quotes.  [lit] tells whether the position is inside a literal,
    [cur] is the word read so far.  The result is the list of tokens, a
    statement separator being a token, and whether the text ends outside a
    literal. *)
Fixpoint tokenize (lit : bool) (cur : string) (s : string) : list token * bool :=
  match s with
  | EmptyString => (flush cur, negb lit)
  | String c s' =>
      if lit then tokenize (negb (Ascii.eqb c QUOTE)) "" s'
      else if is_word_char c then tokenize false (cur +:+ String c "") s'
      else
        let '(ts, closed) := tokenize (Ascii.eqb c QUOTE) "" s' in
        (flush cur ++ (if Ascii.eqb c SEMICOLON then [Separator] else []) ++ ts,
         closed)
  end.

Definition in_denylist (w : string) : bool :=
  existsb (String.eqb w) denylist.

Fixpoint first_keyword (ts : list token) : option string :=
  match ts with
  | [] => None
  | Word w :: ts' => if in_denylist w then Some w else first_keyword ts'
  | Separator :: ts' => first_keyword ts'
  end.

Definition is_separator (t : token) : bool :=
  match t with Separator => true | Word _ => false end.

(** Modelled from the spec: the normalisation of the gate, trimming and
    uppercasing for the comparison with the keywords.  The keywords are
    words of ASCII, and the normalisation works on ASCII: the whitespace
    characters of ASCII are trimmed, its letters are uppercased, every
    other byte is kept. *)
Definition is_space (c : ascii) : bool :=
  let n := nat_of_ascii c in
  ((9 <=? n) && (n <=? 13)) || ((28 <=? n) && (n <=? 32)).

Fixpoint trim_left (s : string) : string :=
  match s with
  | EmptyString => EmptyString
  | String c s' => if is_space c then trim_left s' else s
  end.

Fixpoint trim_right (s : string) : string :=
  match s with
  | EmptyString => EmptyString
  | String c s' =>
      match trim_right s' with
      | EmptyString => if is_space c then EmptyString else String c EmptyString
      | r => String c r
      end
  end.

Definition trim (s : string) : string := trim_right (trim_left s).

Fixpoint uppercase (s : string) : string :=
  match s with
  | EmptyString => EmptyString
  | String c s' => String (Str.upper_char c) (uppercase s')
  end.

(** Modelled from the spec: [classify] of the security gate.  The query is
    trimmed; an empty one is rejected.  The uppercased text is cut into
    tokens; a word of the denylist rejects the query with that keyword as
    the reason, and a statement separator rejects it.  Every text can be
    cut into tokens, and the function returns for every text. *)
Definition classify (query : string) : GateDecision :=
  let s := trim query in
  match s with
  | EmptyString => Rejected "empty query"
  | _ =>
      let ts := fst (tokenize false "" (uppercase s)) in
      match first_keyword ts with
      | Some k => Rejected k
      | None =>
          if existsb is_separator ts then Rejected ";"
          else Approved
      end
  end.

(** Modelled from the spec: [utils.security_gate], as [call_tool] uses it:
    the pair [(is_dangerous, reason)] of the decision. *)
Definition security_gate (query : string) : bool * string :=
  match classify query with
  | Approved => (false, "")
  | Rejected reason => (true, reason)
  end.

End SecurityGate.

(** ** Notions the properties are stated with *)

(** [c in s] for a character [c]. *)
Fixpoint has_char (c : ascii) (s : string) : bool :=
  match s with
  | EmptyString => false
  | String a s' => Ascii.eqb a c || has_char c s'
  end.

(** The text of a tabular answer: the column names joined by commas, then
    one line per row, the fields joined by commas. *)
Definition tabular_text {Field : Type} (str : Field -> string)
    (res : ResultSet Field) : string :=
  Str.join Str.NL
    (Str.join "," (column_names res)
     :: List.map (fun row => Str.join "," (List.map str row)) (rows res)).

(** *** Notions the gate is measured against *)

Module GateSpec.

Import SecurityGate.

(** The number of quote characters of a text. *)
Fixpoint quotes (s : string) : nat :=
  match s with
  | EmptyString => 0
  | String c s' => (if Ascii.eqb c QUOTE then 1 else 0) + quotes s'
  end.


(** A text with a literal left open. *)
Definition unterminated (s : string) : Prop := Nat.odd (quotes s) = true.












(** The state of the pass after [pre], started in state [lit]. *)
Fixpoint lit_after (lit : bool) (pre : string) : bool :=
  match pre with
  | EmptyString => lit
  | String c pre' => lit_after (xorb lit (Ascii.eqb c QUOTE)) pre'
  end.




End GateSpec.

(** The lines of a text and the comma-separated fields of a line. *)
Definition lines (text : string) : list string := Str.split Str.LF text.
Definition fields (line : string) : list string := Str.split "," line.

(** What is said of the shape of a tabular answer: the first line has as
    many comma-separated fields as the cursor has columns, and as many
    lines follow as the cursor has rows. *)
Definition tabular_counts {Field : Type} (res : ResultSet Field)
    (text : string) : Prop :=
  List.length (fields (List.hd "" (lines text))) = List.length (column_names res)
  /\ List.length (List.tl (lines text)) = List.length (rows res).

(** A cursor with a text field that holds a line break. *)
Definition notes : ResultSet string :=
  {| column_names := ["note"];
     rows := [["first" +:+ Str.NL +:+ "second"]] |}.

(** [old] occurs in [s]. *)
Definition occurs (old s : string) : Prop :=
  exists pre post, s = pre +:+ old +:+ post.

(** [replaced old new s r]: [r] is [s] with the occurrences of [old],
    found from left to right without overlap, replaced by [new], and
    nothing else changed.  In the second rule the occurrence after [pre] is
    the leftmost one of the text. *)
Inductive replaced (old new : string) : string -> string -> Prop :=
| replaced_none (s : string) :
    ~ occurs old s -> replaced old new s s
| replaced_first (pre rest rest' : string) :
    (forall pre' post', pre +:+ old +:+ rest = pre' +:+ old +:+ post' ->
                        String.length pre <= String.length pre') ->
    replaced old new rest rest' ->
    replaced old new (pre +:+ old +:+ rest) (pre +:+ new +:+ rest').

(** One replacement per argument, in the order of the arguments. *)
Inductive substituted : list (string * string) -> string -> string -> Prop :=
| substituted_nil (s : string) : substituted [] s s
| substituted_cons (key value : string) (items : list (string * string))
    (s s' s'' : string) :
    replaced (placeholder key) value s s' ->
    substituted items s' s'' ->
    substituted ((key, value) :: items) s s''.

(** The items of [arguments], none for [None]. *)
Definition items_of (arguments : option (list (string * string)))
  : list (string * string) :=
  match arguments with
  | None => []
  | Some items => items
  end.

(** What is said of [get_prompt]: one pass over the template in which
    every placeholder of a supplied name gives way to the argument of that
    name, and every other character is kept. *)
Definition placeholder_at (items : list (string * string)) (s : string)
  : option (string * string) :=
  List.find (fun kv => Str.startswith s (placeholder (fst kv))) items.

Fixpoint expand_from (skip : nat) (items : list (string * string)) (s : string)
  : string :=
  match s with
  | EmptyString => EmptyString
  | String c s' =>
      match skip with
      | S k => expand_from k items s'
      | O =>
          match placeholder_at items s with
          | Some (key, value) =>
              value +:+ expand_from (String.length (placeholder key) - 1) items s'
          | None => String c (expand_from O items s')
          end
      end
  end.

Definition expand (items : list (string * string)) (template : string) : string :=
  expand_from O items template.

(** [get_prompt] as it is described: a known prompt is answered with the
    single pass [expand] over its template. *)
Definition get_prompt_expands (self : DatabaseServer) (name : string)
    (arguments : option (list (string * string))) : Prop :=
  forall t, templates self !! name = Some t ->
    get_prompt self name arguments
    = Return {| gp_description := tpl_description t;
                gp_messages :=
                  [ {| pm_role := "user";
                       pm_content :=
                         text_content (expand (items_of arguments) (tpl_template t)) |} ] |}.

(** A server with one prompt, and arguments of which the first holds the
    placeholder of the second. *)
Definition server1 : DatabaseServer :=
  {| database := "db";
     templates := {[ "ask" := {| tpl_template := "Tell me about {{ a }}, not {{ c }}.";
                                 tpl_description := "A question" |} ]} |}.

Definition nested_arguments : list (string * string) :=
  [("a", "{{ b }}"); ("b", "X")].

(** The rows of a cursor, each given by its first field and its other
    fields, whose tables get the URLs [uris] from the validation. *)
Definition validated {Field : Type} (any_url : string -> outcome string)
    (str : Field -> string) (rs : list (Field * list Field))
    (uris : list string) : Prop :=
  Forall2 (fun t uri => any_url (resource_uri (str (fst t))) = Return uri)
    rs uris.

(** The statement [read_resource] sends for a table. *)
Definition table_query (table : string) : string :=
  "SELECT * FROM " +:+ table +:+ " LIMIT " +:+ str_of_nat RESULTS_LIMIT.

(** The pool after a handler has acquired a session, executed [sql] on it
    and released it, and after it has acquired and executed without
    releasing. *)
Definition after_release (st : PoolState) (sql : string) : PoolState :=
  {| in_use := List.remove Nat.eq_dec (next_session st)
                 (next_session st :: in_use st);
     next_session := S (next_session st);
     log := log st ++ [GetSession (next_session st);
                       Execute (next_session st) sql;
                       Close (next_session st)] |}.

Definition after_leak (st : PoolState) (sql : string) : PoolState :=
  {| in_use := next_session st :: in_use st;
     next_session := S (next_session st);
     log := log st ++ [GetSession (next_session st);
                       Execute (next_session st) sql] |}.

(** What is said of [call_tool] on a statement of another kind: it returns
    the fixed diagnostic. *)
Definition answers_with_diagnostic (handler : M (list TextContent))
    (st : PoolState) : Prop :=
  fst (handler st) = Return [text_content "Error executing query"].

(** Every session acquired in a history is released exactly once in it. *)
Definition released_once (events : list event) : Prop :=
  forall sid, In (GetSession sid) events -> releases sid events = 1.

(** What is said of a handler: in the history of an invocation, every
    session acquired is released exactly once. *)
Definition releases_its_session {A : Type} (handler : M A) (st : PoolState)
  : Prop :=
  exists events,
    log (snd (handler st)) = log st ++ events /\ released_once events.

(** ** A concrete server *)

(** A server and a driver to run the handlers on: the database [db] holds
    the tables [a] and [b]; [sensors] has the columns [time] and [temp] and
    one row. *)
Definition server0 : DatabaseServer :=
  {| database := "db"; templates := ∅ |}.

Definition sensors : ResultSet string :=
  {| column_names := ["time"; "temp"]; rows := [["1"; "23.5"]] |}.

Definition driver0 (sql : string) : outcome (ResultSet string) :=
  if String.eqb sql "SHOW TABLES"
  then Return {| column_names := ["TableName"; "TTL(ms)"];
                 rows := [["a"; "INF"]; ["b"; "INF"]] |}
  else if Str.startswith sql "SELECT * FROM sensors"
  then Return sensors
  else if Str.startswith sql "SELECT * FROM missing"
  then Raise (DriverError "550: Table 'db.missing' does not exist.")
  else Return {| column_names := []; rows := [] |}.

(** A driver that answers every statement with the rows of [sensors]. *)
Definition driver1 (sql : string) : outcome (ResultSet string) := Return sensors.

(** A driver that has lost its connection: every statement raises. *)
Definition driver_down (sql : string) : outcome (ResultSet string) :=
  Raise (DriverError "Connection refused").

Definition query_args (query : string) : gmap string string :=
  {[ "query" := query ]}.

(** ** The other handlers *)

(** JSON values, as far as the tool catalog holds them. *)
#[warnings="-register-all"]
Inductive json : Type :=
| JString (s : string)
| JArray (items : list json)
| JObject (members : list (string * json)).

(** [mcp.types.Tool] *)
Record Tool : Type := {
  tool_name : string;
  tool_description : string;
  tool_inputSchema : json;
}.

(** [list_tools] *)
Definition list_tools (self : DatabaseServer) : list Tool :=
  [ {| tool_name := "execute_sql";
       tool_description :=
         "Execute SQL query against IoTDB. Please use MySQL dialect when generating SQL queries.";
       tool_inputSchema :=
         JObject
           [ ("type", JString "object");
             ("properties",
              JObject
                [ ("query",
                   JObject
                     [ ("type", JString "string");
                       ("description",
                        JString "The SQL query to execute (using MySQL dialect)") ]) ]);
             ("required", JArray [JString "query"]) ] |} ].

(** The member [key] of a JSON object. *)
Fixpoint json_member (key : string) (members : list (string * json))
  : option json :=
  match members with
  | [] => None
  | (k, v) :: rest => if String.eqb k key then Some v else json_member key rest
  end.

Definition json_strings (items : list json) : list string :=
  List.flat_map (fun j => match j with JString s => [s] | _ => [] end) items.

(** The parameters that a tool's schema requires, and the parameters it
    declares. *)
Definition required_parameters (t : Tool) : list string :=
  match tool_inputSchema t with
  | JObject members =>
      match json_member "required" members with
      | Some (JArray items) => json_strings items
      | _ => []
      end
  | _ => []
  end.

Definition declared_parameters (t : Tool) : list string :=
  match tool_inputSchema t with
  | JObject members =>
      match json_member "properties" members with
      | Some (JObject properties) => List.map fst properties
      | _ => []
      end
  | _ => []
  end.

(** [mcp.types.Prompt]; [Args] is what the template loader puts under
    [config["arguments"]]. *)
Record Prompt (Args : Type) : Type := {
  prompt_name : string;
  prompt_description : string;
  prompt_arguments : Args;
}.
Arguments prompt_name {Args} _.
Arguments prompt_description {Args} _.
Arguments prompt_arguments {Args} _.

(** An entry of [self.templates] as [list_prompts] reads it:
    [template["template"]], [template["config"]["description"]] and
    [template["config"]["arguments"]]. *)
Record LoadedTemplate (Args : Type) : Type := {
  lt_template : string;
  lt_description : string;
  lt_arguments : Args;
}.
Arguments lt_template {Args} _.
Arguments lt_description {Args} _.
Arguments lt_arguments {Args} _.

(** The part of an entry that [get_prompt] reads. *)
Definition template_of {Args : Type} (t : LoadedTemplate Args) : Template :=
  {| tpl_template := lt_template t; tpl_description := lt_description t |}.

(** The dict [self.templates] with the given items. *)
Definition templates_of {Args : Type} (items : list (string * LoadedTemplate Args))
  : gmap string Template :=
  list_to_map (List.map (fun nt => (fst nt, template_of (snd nt))) items).

(** [for name, template in self.templates.items(): prompts.append(Prompt(...))] *)
Fixpoint list_prompts_loop {Args : Type} (prompts : list (Prompt Args))
    (items : list (string * LoadedTemplate Args)) : list (Prompt Args) :=
  match items with
  | [] => prompts
  | (name, template) :: rest =>
      list_prompts_loop
        (prompts ++ [ {| prompt_name := name;
                         prompt_description := lt_description template;
                         prompt_arguments := lt_arguments template |} ])
        rest
  end.

(** [list_prompts], on the items of [self.templates] in the order in which
    the dict yields them. *)
Definition list_prompts {Args : Type} (items : list (string * LoadedTemplate Args))
  : list (Prompt Args) :=
  list_prompts_loop [] items.

(** ** Notions for the further properties *)

(** What an invocation of a handler does to the pool: nothing, or one
    acquisition and one statement, with or without the release. *)
Definition footprint (st st' : PoolState) : Prop :=
  st' = st
  \/ exists sql, st' = after_leak st sql \/ st' = after_release st sql.

(** A pool in order: no session is in use twice, and the sessions in use
    were handed out before. *)
Definition pool_ok (st : PoolState) : Prop :=
  NoDup (in_use st) /\ Forall (fun sid => sid < next_session st) (in_use st).

(** The pool after [n] invocations of a handler in a row. *)
Fixpoint run_times {A : Type} (n : nat) (handler : M A) (st : PoolState)
  : PoolState :=
  match n with
  | O => st
  | S k => run_times k handler (snd (handler st))
  end.

(** Reading a tabular answer back: the fields of its lines. *)
Definition parse_table (text : string) : list (list string) :=
  List.map fields (lines text).

(** [old in s], to decide [occurs]. *)
Fixpoint contains (old s : string) : bool :=
  match s with
  | EmptyString => Str.startswith s old
  | String _ s' => Str.startswith s old || contains old s'
  end.

(** Two prompts to list. *)
Definition prompt_items : list (string * LoadedTemplate (list string)) :=
  [ ("ask", {| lt_template := "Tell me about {{ a }}, not {{ c }}.";
               lt_description := "A question";
               lt_arguments := ["a"; "c"] |});
    ("plain", {| lt_template := "List the tables.";
                 lt_description := "No placeholder";
                 lt_arguments := [] |}) ].

(** Two characters outside ASCII: U+00A0, a whitespace character, and
    U+017F, whose uppercase is the letter S. *)
Definition no_break_space : string := Eval cbv in Str.bytes [194; 160].
Definition long_s : string := Eval cbv in Str.bytes [197; 191].

(** A case table to run the handlers on: the uppercase of U+017F, every
    other character as it is. *)
Definition unicode_upper0 (c : string) : string :=
  if String.eqb c long_s then "S" else c.

(** A validation of URLs to run the handlers on: a text without a space
    is taken as it is, and a text with a space is refused. *)
Definition any_url0 (text : string) : outcome string :=
  if has_char " " text
  then Raise (ValidationError "Input should be a valid URL")
  else Return text.

(** A cursor with a table whose name holds a space. *)
Definition spaced : ResultSet string :=
  {| column_names := ["TableName"]; rows := [["a"]; ["my table"]] |}.

(** A cursor with a row that has no field. *)
Definition ragged : ResultSet string :=
  {| column_names := ["TableName"]; rows := [["a"]; []; ["b"]] |}.

Example upper_ex :
  Str.upper (fun c => c) "select * from t1" = "SELECT * FROM T1".
Proof. reflexivity. Qed.
Example upper_ex2 : Str.upper unicode_upper0 (long_s +:+ "elect 1") = "SELECT 1".
Proof. reflexivity. Qed.
Example strip_ex : Str.strip "  show tables  " = "show tables".
Proof. reflexivity. Qed.
Example strip_ex2 :
  Str.strip (no_break_space +:+ "select 1" +:+ Str.NL +:+ no_break_space)
  = "select 1".
Proof. reflexivity. Qed.
Example replace_ex3 : Str.replace "" "-" (long_s +:+ "a") = "-" +:+ long_s +:+ "-a-".
Proof. reflexivity. Qed.
Example split_ex : Str.split "/" "t/data/x" = ["t"; "data"; "x"].
Proof. reflexivity. Qed.
Example split_ex2 : Str.split "/" "/a//" = [""; "a"; ""; ""].
Proof. reflexivity. Qed.
Example replace_ex : Str.replace "aa" "b" "aaaxaa" = "baxb".
Proof. reflexivity. Qed.
Example replace_ex2 : Str.replace "" "-" "abc" = "-a-b-c-".
Proof. reflexivity. Qed.
Example join_ex : Str.join "," ["a"; "b"; "c"] = "a,b,c".
Proof. reflexivity. Qed.

Example classify_drop :
  SecurityGate.classify "DROP TABLE root.sg.d1" = SecurityGate.Rejected "DROP".
Proof. reflexivity. Qed.
Example classify_literal :
  SecurityGate.classify "SELECT * FROM t WHERE col = 'UPDATED' AND c = 'drop it'"
  = SecurityGate.Approved.
Proof. reflexivity. Qed.
Example classify_identifier :
  SecurityGate.classify "select dropped, drop_count from created_at"
  = SecurityGate.Approved.
Proof. reflexivity. Qed.
Example classify_chain :
  SecurityGate.classify "SELECT 1; drop table x" = SecurityGate.Rejected "DROP".
Proof. reflexivity. Qed.
Example classify_separator :
  SecurityGate.classify "SELECT 1; SELECT 2" = SecurityGate.Rejected ";".
Proof. reflexivity. Qed.
Example classify_blank :
  SecurityGate.classify "   " = SecurityGate.Rejected "empty query".
Proof. reflexivity. Qed.
Example classify_open_literal :
  SecurityGate.classify "SELECT 'abc; drop" = SecurityGate.Approved.
Proof. reflexivity. Qed.
Example classify_set :
  SecurityGate.classify "SET SOMETHING" = SecurityGate.Approved.
Proof. reflexivity. Qed.

(** * Properties *)

(** ** The two cursor loops *)

Section Loops.

Context {Field : Type}.
Variable any_url : string -> outcome string.
Variable str : Field -> string.

Lemma rows_loop_spec (rs : list (list Field)) (result : list string) :
  rows_loop str result rs
  = result ++ List.map (fun row => Str.join "," (List.map str row)) rs.
Proof.
  revert result; induction rs as [|row rest IH]; intros result; simpl.
  - by rewrite app_nil_r.
  - rewrite IH. by rewrite <- app_assoc.
Qed.

Lemma first_fields_loop_spec (tables : list (Field * list Field))
    (result : list string) :
  first_fields_loop str result (List.map (fun t => fst t :: snd t) tables)
  = Return (result ++ List.map (fun t => str (fst t)) tables).
Proof.
  revert result; induction tables as [|[f fs] rest IH]; intros result; simpl.
  - by rewrite app_nil_r.
  - rewrite IH. by rewrite <- app_assoc.
Qed.

Lemma first_fields_loop_empty_row (rs1 rs2 : list (list Field))
    (result : list string) :
  first_fields_loop str result (rs1 ++ [] :: rs2) = Raise IndexError.
Proof.
  revert result; induction rs1 as [|[|f fs] rest IH]; intros result; simpl; auto.
Qed.

Lemma resources_loop_spec (rs : list (Field * list Field)) (uris : list string)
    (resources : list Resource) :
  validated any_url str rs uris ->
  resources_loop any_url str resources (List.map (fun t => fst t :: snd t) rs)
  = Return (resources
            ++ zip_with (fun t uri => resource_with uri (str (fst t))) rs uris).
Proof.
  intros H; revert resources.
  induction H as [|[f fs] uri rs uris Hurl _ IH]; intros resources; simpl.
  - by rewrite app_nil_r.
  - unfold resource_of_table. simpl in Hurl. rewrite Hurl, IH.
    by rewrite <- app_assoc.
Qed.

(** The loop of [list_resources] ends at the first row that has no field
    or whose table gets no URL. *)
Lemma resources_loop_raises (rs1 : list (Field * list Field))
    (uris : list string) (row : list Field) (rs2 : list (list Field))
    (e : exn) (resources : list Resource) :
  validated any_url str rs1 uris ->
  match row with
  | [] => e = IndexError
  | f :: _ => any_url (resource_uri (str f)) = Raise e
  end ->
  resources_loop any_url str resources
    (List.map (fun t => fst t :: snd t) rs1 ++ row :: rs2)
  = Raise e.
Proof.
  intros H Hrow; revert resources.
  induction H as [|[f fs] uri rs uris Hurl _ IH]; intros resources; simpl.
  - destruct row as [|f fs]; [by subst|].
    unfold resource_of_table. by rewrite Hrow.
  - unfold resource_of_table. simpl in Hurl. by rewrite Hurl, IH.
Qed.

End Loops.

(** ** Prefixes *)

Lemma startswith_app (p s : string) : Str.startswith (p +:+ s) p = true.
Proof.
  induction p as [|a p IH]; simpl; [done|].
  by rewrite Ascii.eqb_refl.
Qed.

Lemma startswith_inv (s p : string) :
  Str.startswith s p = true -> exists r, s = p +:+ r.
Proof.
  revert s; induction p as [|a p IH]; intros s H; simpl in *.
  - by exists s.
  - destruct s as [|b s]; [done|].
    destruct (Ascii.eqb_spec a b) as [->|]; [|done].
    destruct (IH _ H) as [r ->]. by exists r.
Qed.

Lemma drop_app (p s : string) : Str.drop (String.length p) (p +:+ s) = s.
Proof. induction p as [|a p IH]; simpl; auto. Qed.

(** A text that starts with [SELECT] or [DESCRIBE] does not start with
    [SHOW TABLES]. *)
Lemma select_not_show (stmt : string) :
  Str.startswith stmt "SELECT" || Str.startswith stmt "DESCRIBE" = true ->
  Str.startswith stmt "SHOW TABLES" = false.
Proof.
  destruct stmt as [|a [|b stmt]]; [done| |].
  - cbn [Str.startswith].
    destruct (Ascii.eqb "S" a), (Ascii.eqb "D" a); done.
  - cbn [Str.startswith].
    destruct (Ascii.eqb_spec "S"%char a) as [<-|]; [|done].
    destruct (Ascii.eqb_spec "H"%char b) as [<-|]; [|done].
    vm_compute. intros H; discriminate H.
Qed.

(** ** [call_tool] and [read_resource] *)

(** ** [split] *)

Lemma split_no_sep (c : ascii) (t : string) :
  has_char c t = false -> Str.split c t = [t].
Proof.
  induction t as [|a t IH]; simpl; [done|].
  destruct (Ascii.eqb a c); simpl; [done|].
  intros H. by rewrite (IH H).
Qed.

Lemma split_first (c : ascii) (t tail : string) :
  has_char c t = false ->
  Str.split c (t +:+ String c tail) = t :: Str.split c tail.
Proof.
  induction t as [|a t IH]; simpl.
  - by rewrite Ascii.eqb_refl.
  - destruct (Ascii.eqb a c); simpl; [done|].
    intros H. by rewrite (IH H).
Qed.

Lemma append_empty_r (s : string) : s +:+ "" = s.
Proof. induction s; simpl; congruence. Qed.

Lemma append_assoc (a b c : string) : (a +:+ b) +:+ c = a +:+ b +:+ c.
Proof. induction a; simpl; congruence. Qed.

Lemma has_char_app (c : ascii) (a b : string) :
  has_char c (a +:+ b) = has_char c a || has_char c b.
Proof.
  induction a as [|x a IH]; simpl; [done|].
  by rewrite IH, orb_assoc.
Qed.

(** Joining pieces that are free of a character with a separator free of
    it gives a text free of it. *)
Lemma has_char_join (c : ascii) (sep : string) (l : list string) :
  has_char c sep = false ->
  Forall (fun x => has_char c x = false) l ->
  has_char c (Str.join sep l) = false.
Proof.
  intros Hsep Hl. induction Hl as [|x l Hx Hl IH]; [done|].
  destruct l as [|y l]; [done|].
  change (Str.join sep (x :: y :: l)) with (x +:+ sep +:+ Str.join sep (y :: l)).
  by rewrite !has_char_app, Hx, Hsep, IH.
Qed.

(** [split] undoes [join] on pieces that are free of the separator. *)
Lemma split_join (c : ascii) (l : list string) :
  l <> [] ->
  Forall (fun x => has_char c x = false) l ->
  Str.split c (Str.join (String c "") l) = l.
Proof.
  intros Hne Hl. induction Hl as [|x l Hx Hl IH]; [done|].
  destruct l as [|y l]; [by apply split_no_sep|].
  change (Str.join (String c "") (x :: y :: l))
    with (x +:+ String c (Str.join (String c "") (y :: l))).
  rewrite split_first by done. by rewrite IH.
Qed.

#[local] Arguments Str.startswith : simpl never.

Section GatewayFacts.

Context {Field : Type}.
Variable unicode_upper : string -> string.
Variable any_url : string -> outcome string.
Variable str : Field -> string.
Variable security_gate : string -> bool * string.
Variable driver : string -> outcome (ResultSet Field).

Local Abbreviation callTool := (call_tool unicode_upper str security_gate driver).
Local Abbreviation readResource := (read_resource str driver).
Local Abbreviation listResources := (list_resources any_url str driver).

(** [call_tool] up to the gate's verdict. *)
Lemma call_tool_gate (self : DatabaseServer) (arguments : gmap string string)
    (query : string) :
  arguments !! "query" = Some query -> query <> "" ->
  callTool self "execute_sql" arguments
  = if fst (security_gate query)
    then ret [text_content ("Error: Contain dangerous operations, reason:"
                            +:+ snd (security_gate query))]
    else
      do table_session <- get_session;
      do res <- execute_query_statement driver table_session query;
      let stmt := Str.upper unicode_upper (Str.strip query) in
      if Str.startswith stmt "SHOW TABLES" then
        do result <- lift (first_fields_loop str ["Tables_in_" +:+ database self] (rows res));
        run close table_session;
        ret [text_content (Str.join Str.NL result)]
      else if Str.startswith stmt "SELECT" || Str.startswith stmt "DESCRIBE" then
        run close table_session;
        ret [text_content
               (Str.join Str.NL
                  (Str.join "," (column_names res) :: rows_loop str [] (rows res)))]
      else ret [text_content "Error executing query"].
Proof.
  intros Hq Hne. unfold call_tool. rewrite Hq. simpl.
  destruct query as [|c query]; [done|].
  by destruct (security_gate (String c query)) as [[] reason].
Qed.

(** The whole run of [call_tool] on an approved query: the answer and the
    pool, by what the driver does and by the statement's prefix. *)
Lemma call_tool_run (self : DatabaseServer) (arguments : gmap string string)
    (query : string) (st : PoolState) :
  arguments !! "query" = Some query -> query <> "" ->
  fst (security_gate query) = false ->
  callTool self "execute_sql" arguments st
  = match driver query with
    | Raise e => (Raise e, after_leak st query)
    | Return res =>
        if Str.startswith (Str.upper unicode_upper (Str.strip query)) "SHOW TABLES" then
          match first_fields_loop str ["Tables_in_" +:+ database self] (rows res) with
          | Return result =>
              (Return [text_content (Str.join Str.NL result)],
               after_release st query)
          | Raise e => (Raise e, after_leak st query)
          end
        else if Str.startswith (Str.upper unicode_upper (Str.strip query)) "SELECT"
                || Str.startswith (Str.upper unicode_upper (Str.strip query)) "DESCRIBE" then
          (Return [text_content (tabular_text str res)], after_release st query)
        else
          (Return [text_content "Error executing query"], after_leak st query)
    end.
Proof.
  intros Hq Hne Hgate. rewrite (call_tool_gate _ _ _ Hq Hne), Hgate.
  unfold bind, get_session, execute_query_statement, lift, after_leak,
    after_release, tabular_text; simpl.
  destruct (driver query) as [res|e]; rewrite <- ?app_assoc; [|done].
  destruct (Str.startswith _ "SHOW TABLES").
  - destruct (first_fields_loop _ _ _); simpl; by rewrite <- ?app_assoc.
  - destruct (_ || _); simpl; rewrite <- ?app_assoc; [|done].
    by rewrite rows_loop_spec.
Qed.

(** The whole run of [read_resource] on a URI with the prefix. *)
Lemma read_resource_run (self : DatabaseServer) (uri_str table : string)
    (rest : list string) (st : PoolState) :
  Str.startswith uri_str RES_PREFIX = true ->
  Str.split "/" (Str.drop (String.length RES_PREFIX) uri_str) = table :: rest ->
  readResource self uri_str st
  = match driver (table_query table) with
    | Return res => (Return (tabular_text str res),
                     after_release st (table_query table))
    | Raise e => (Raise e, after_leak st (table_query table))
    end.
Proof.
  intros Hprefix Hsplit. unfold read_resource. rewrite Hprefix, Hsplit.
  unfold bind, get_session, execute_query_statement, table_query, after_leak,
    after_release, tabular_text; simpl.
  destruct (driver _) as [res|e]; simpl; rewrite <- ?app_assoc; [|done].
  by rewrite rows_loop_spec.
Qed.

(** The whole run of [list_resources]. *)
Lemma list_resources_run (self : DatabaseServer) (st : PoolState) :
  listResources self st
  = match driver "SHOW TABLES" with
    | Return tables =>
        match resources_loop any_url str [] (rows tables) with
        | Return resources => (Return resources, after_release st "SHOW TABLES")
        | Raise e => (Raise e, after_leak st "SHOW TABLES")
        end
    | Raise e => (Raise e, after_leak st "SHOW TABLES")
    end.
Proof.
  unfold list_resources, bind, get_session, execute_query_statement, lift,
    after_leak, after_release; simpl.
  destruct (driver _) as [res|e]; simpl; rewrite <- ?app_assoc; [|done].
  destruct (resources_loop _ _ _ _); simpl; by rewrite <- ?app_assoc.
Qed.

Lemma after_release_once (st : PoolState) (sql : string) :
  released_once [GetSession (next_session st);
                 Execute (next_session st) sql;
                 Close (next_session st)].
Proof.
  intros sid [[= <-]|[?|[?|[]]]]; try done.
  unfold releases. simpl. by rewrite Nat.eqb_refl.
Qed.

Lemma after_release_in_use (st : PoolState) (sql : string) :
  ~ In (next_session st) (in_use st) ->
  in_use (after_release st sql) = in_use st.
Proof.
  intros Hfresh. simpl. destruct (Nat.eq_dec _ _); [|done].
  by apply notin_remove.
Qed.

(** C1 (amended): a handler that acquires a session and gets its cursor
    from the driver releases the session exactly once before it returns:
    [list_resources] when every row has a first field and every table's
    URI is accepted as a URL, the [SHOW TABLES] branch of [call_tool] when
    every row has a first field, [read_resource], and the
    [SELECT]/[DESCRIBE] branch of [call_tool]; the sessions in use are then
    those of before.  [call_tool] on a query that the gate rejects acquires
    no session.  When the driver raises, or when [list_resources] meets a
    table whose URI is refused, the exception leaves the handler and the
    session it acquired is not released. *)
Theorem sessions_released (self : DatabaseServer) (st : PoolState) :
  (forall tables rs uris,
      driver "SHOW TABLES" = Return tables ->
      rows tables = List.map (fun t => fst t :: snd t) rs ->
      validated any_url str rs uris ->
      snd (listResources self st) = after_release st "SHOW TABLES")
  /\ (forall uri_str table rest res,
        Str.startswith uri_str RES_PREFIX = true ->
        Str.split "/" (Str.drop (String.length RES_PREFIX) uri_str) = table :: rest ->
        driver (table_query table) = Return res ->
        snd (readResource self uri_str st) = after_release st (table_query table))
  /\ (forall arguments query res,
        arguments !! "query" = Some query -> query <> "" ->
        fst (security_gate query) = false ->
        driver query = Return res ->
        (Str.startswith (Str.upper unicode_upper (Str.strip query)) "SELECT"
         || Str.startswith (Str.upper unicode_upper (Str.strip query)) "DESCRIBE" = true
         \/ (Str.startswith (Str.upper unicode_upper (Str.strip query)) "SHOW TABLES" = true
             /\ exists rs, rows res = List.map (fun t => fst t :: snd t) rs)) ->
        snd (callTool self "execute_sql" arguments st) = after_release st query)
  /\ (forall arguments query,
        arguments !! "query" = Some query -> query <> "" ->
        fst (security_gate query) = true ->
        snd (callTool self "execute_sql" arguments st) = st)
  /\ (forall e,
        driver "SHOW TABLES" = Raise e ->
        listResources self st = (Raise e, after_leak st "SHOW TABLES"))
  /\ (forall tables rs1 uris f fs rs2 e,
        driver "SHOW TABLES" = Return tables ->
        rows tables = List.map (fun t => fst t :: snd t) rs1 ++ (f :: fs) :: rs2 ->
        validated any_url str rs1 uris ->
        any_url (resource_uri (str f)) = Raise e ->
        listResources self st = (Raise e, after_leak st "SHOW TABLES"))
  /\ (forall uri_str table rest e,
        Str.startswith uri_str RES_PREFIX = true ->
        Str.split "/" (Str.drop (String.length RES_PREFIX) uri_str) = table :: rest ->
        driver (table_query table) = Raise e ->
        readResource self uri_str st = (Raise e, after_leak st (table_query table)))
  /\ (forall arguments query e,
        arguments !! "query" = Some query -> query <> "" ->
        fst (security_gate query) = false ->
        driver query = Raise e ->
        callTool self "execute_sql" arguments st = (Raise e, after_leak st query))
  /\ (forall sql,
        log (after_release st sql)
        = log st ++ [GetSession (next_session st);
                     Execute (next_session st) sql;
                     Close (next_session st)]
        /\ released_once [GetSession (next_session st);
                          Execute (next_session st) sql;
                          Close (next_session st)]
        /\ (~ In (next_session st) (in_use st) ->
            in_use (after_release st sql) = in_use st)).
Proof.
  split; [|split; [|split; [|split; [|split; [|split; [|split; [|split]]]]]]].
  - intros tables rs uris Hdriver Hrows Hurls.
    by rewrite list_resources_run, Hdriver, Hrows,
      (resources_loop_spec _ _ _ _ _ Hurls).
  - intros uri_str table rest res Hprefix Hsplit Hdriver.
    by rewrite (read_resource_run _ _ _ _ _ Hprefix Hsplit), Hdriver.
  - intros arguments query res Hq Hne Hgate Hdriver Hkind.
    rewrite (call_tool_run _ _ _ _ Hq Hne Hgate), Hdriver.
    destruct Hkind as [Hselect|[Hshow [rs Hrows]]].
    + by rewrite (select_not_show _ Hselect), Hselect.
    + by rewrite Hshow, Hrows, first_fields_loop_spec.
  - intros arguments query Hq Hne Hgate.
    by rewrite (call_tool_gate _ _ _ Hq Hne), Hgate.
  - intros e Hdriver. by rewrite list_resources_run, Hdriver.
  - intros tables rs1 uris f fs rs2 e Hdriver Hrows Hurls Hurl.
    by rewrite list_resources_run, Hdriver, Hrows,
      (resources_loop_raises _ _ _ _ (f :: fs) _ _ _ Hurls Hurl).
  - intros uri_str table rest e Hprefix Hsplit Hdriver.
    by rewrite (read_resource_run _ _ _ _ _ Hprefix Hsplit), Hdriver.
  - intros arguments query e Hq Hne Hgate Hdriver.
    by rewrite (call_tool_run _ _ _ _ Hq Hne Hgate), Hdriver.
  - intros sql. split; [done|]. split.
    + apply after_release_once.
    + apply after_release_in_use.
Qed.

(** X4: the branch of [call_tool] for the other statements returns without
    [close]: the session it acquired stays in use, and the history of the
    invocation holds one acquisition and no release. *)
Lemma other_statement_keeps_session (self : DatabaseServer)
    (arguments : gmap string string) (query : string) (st : PoolState)
    (res : ResultSet Field) :
  arguments !! "query" = Some query -> query <> "" ->
  fst (security_gate query) = false ->
  Str.startswith (Str.upper unicode_upper (Str.strip query)) "SHOW TABLES" = false ->
  Str.startswith (Str.upper unicode_upper (Str.strip query)) "SELECT" = false ->
  Str.startswith (Str.upper unicode_upper (Str.strip query)) "DESCRIBE" = false ->
  driver query = Return res ->
  callTool self "execute_sql" arguments st
  = (Return [text_content "Error executing query"], after_leak st query)
  /\ acquisitions [GetSession (next_session st); Execute (next_session st) query] = 1
  /\ releases (next_session st)
       [GetSession (next_session st); Execute (next_session st) query] = 0.
Proof.
  intros Hq Hne Hgate Hshow Hselect Hdescribe Hdriver.
  rewrite (call_tool_run _ _ _ _ Hq Hne Hgate), Hdriver, Hshow, Hselect, Hdescribe.
  done.
Qed.

(** C3: a query that reaches the gate (it is the [query] argument and is
    not empty) and that the gate classifies as dangerous is answered with
    ordinary text, "Error: Contain dangerous operations, reason:" followed
    by the gate's reason; nothing is raised and the pool is left as it was:
    no session is acquired. *)
Theorem call_tool_dangerous (self : DatabaseServer)
    (arguments : gmap string string) (query reason : string) (st : PoolState) :
  arguments !! "query" = Some query -> query <> "" ->
  security_gate query = (true, reason) ->
  callTool self "execute_sql" arguments st
  = (Return [text_content ("Error: Contain dangerous operations, reason:" +:+ reason)],
     st).
Proof.
  intros Hq Hne Hgate. rewrite (call_tool_gate _ _ _ Hq Hne), Hgate. done.
Qed.

(** C7: an unknown tool name, a missing or empty [query] argument and a
    URI without the scheme prefix each end the handler with a
    [ValueError]; the pool is left as it was: no session is acquired. *)
Theorem validation_errors (self : DatabaseServer) (st : PoolState) :
  (forall name arguments, name <> "execute_sql" ->
     callTool self name arguments st
     = (Raise (ValueError ("Unknown tool: " +:+ name)), st))
  /\ (forall arguments,
        arguments !! "query" = None \/ arguments !! "query" = Some "" ->
        callTool self "execute_sql" arguments st
        = (Raise (ValueError "Query is required"), st))
  /\ (forall uri_str, Str.startswith uri_str RES_PREFIX = false ->
        readResource self uri_str st
        = (Raise (ValueError ("Invalid URI scheme: " +:+ uri_str)), st)).
Proof.
  repeat split.
  - intros name arguments Hname. unfold call_tool.
    apply String.eqb_neq in Hname. by rewrite Hname.
  - intros arguments [Hq|Hq]; unfold call_tool; by rewrite Hq.
  - intros uri_str Huri. unfold read_resource. by rewrite Huri.
Qed.

(** C8 (amended): an approved query that starts, trimmed and uppercased,
    with none of [SHOW TABLES], [SELECT] and [DESCRIBE] and for which the
    driver returns a cursor is answered with the fixed text "Error
    executing query", whatever the cursor holds; when the driver raises
    instead, its exception leaves [call_tool]. *)
Theorem call_tool_other_statement (self : DatabaseServer)
    (arguments : gmap string string) (query : string) (st : PoolState) :
  arguments !! "query" = Some query -> query <> "" ->
  fst (security_gate query) = false ->
  Str.startswith (Str.upper unicode_upper (Str.strip query)) "SHOW TABLES" = false ->
  Str.startswith (Str.upper unicode_upper (Str.strip query)) "SELECT" = false ->
  Str.startswith (Str.upper unicode_upper (Str.strip query)) "DESCRIBE" = false ->
  fst (callTool self "execute_sql" arguments st)
  = match driver query with
    | Return _ => Return [text_content "Error executing query"]
    | Raise e => Raise e
    end.
Proof.
  intros Hq Hne Hgate Hshow Hselect Hdescribe.
  rewrite (call_tool_run _ _ _ _ Hq Hne Hgate).
  destruct (driver query) as [res|e]; [|done].
  by rewrite Hshow, Hselect, Hdescribe.
Qed.

(** C9: the statement kind is decided by a prefix test on the trimmed,
    uppercased text: an approved query whose text begins with the
    characters [SELECT] or [DESCRIBE], whatever follows them, is answered
    with the tabular rendering of the cursor, not with the error text. *)
Theorem call_tool_prefix_is_tabular (self : DatabaseServer)
    (arguments : gmap string string) (query : string) (st : PoolState)
    (res : ResultSet Field) :
  arguments !! "query" = Some query -> query <> "" ->
  fst (security_gate query) = false ->
  Str.startswith (Str.upper unicode_upper (Str.strip query)) "SELECT"
  || Str.startswith (Str.upper unicode_upper (Str.strip query)) "DESCRIBE" = true ->
  driver query = Return res ->
  fst (callTool self "execute_sql" arguments st)
  = Return [text_content (tabular_text str res)].
Proof.
  intros Hq Hne Hgate Hprefix Hdriver.
  by rewrite (call_tool_run _ _ _ _ Hq Hne Hgate), Hdriver,
    (select_not_show _ Hprefix), Hprefix.
Qed.

(** C5: for an approved query that starts, trimmed and uppercased, with
    [SHOW TABLES], the text is the header "Tables_in_" followed by the
    configured database name, then the table names (the first field of
    each row of the cursor), one per line: these are the lines of the text
    when the names hold no line feed.  With the two tables [a] and [b] the
    text is "Tables_in_<db>\na\nb". *)
Theorem call_tool_show_tables (self : DatabaseServer)
    (arguments : gmap string string) (query : string) (st : PoolState)
    (res : ResultSet Field) (tables : list (Field * list Field)) :
  arguments !! "query" = Some query -> query <> "" ->
  fst (security_gate query) = false ->
  Str.startswith (Str.upper unicode_upper (Str.strip query)) "SHOW TABLES" = true ->
  driver query = Return res ->
  rows res = List.map (fun t => fst t :: snd t) tables ->
  fst (callTool self "execute_sql" arguments st)
  = Return [text_content
              (Str.join Str.NL
                 (("Tables_in_" +:+ database self)
                  :: List.map (fun t => str (fst t)) tables))]
  /\ (has_char Str.LF (database self) = false ->
      Forall (fun t => has_char Str.LF (str (fst t)) = false) tables ->
      lines (Str.join Str.NL
               (("Tables_in_" +:+ database self)
                :: List.map (fun t => str (fst t)) tables))
      = ("Tables_in_" +:+ database self) :: List.map (fun t => str (fst t)) tables)
  /\ (forall a b, List.map (fun t => str (fst t)) tables = [a; b] ->
      fst (callTool self "execute_sql" arguments st)
      = Return [text_content
                  (("Tables_in_" +:+ database self) +:+ Str.NL +:+ a +:+ Str.NL +:+ b)]).
Proof.
  intros Hq Hne Hgate Hshow Hdriver Hrows.
  rewrite (call_tool_run _ _ _ _ Hq Hne Hgate), Hdriver, Hshow, Hrows,
    first_fields_loop_spec.
  split; [done|]. split; [|by intros a b ->].
  intros Hdb Hnames. apply split_join; [done|]. constructor.
  - by rewrite has_char_app, Hdb.
  - by apply Forall_map.
Qed.

(** C10: for a URI that starts with "iotdb://", the table is the text
    between the prefix and the first "/" after it, or the whole rest when
    there is none: the handler sends [SELECT * FROM <table> LIMIT 100] and
    renders the cursor.  What follows that "/" is not looked at: the URI of
    the table alone and the URI with anything after the "/" are answered
    alike. *)
Theorem read_resource_table (self : DatabaseServer) (table tail : string)
    (st : PoolState) :
  has_char "/" table = false ->
  readResource self (RES_PREFIX +:+ table) st
  = match driver (table_query table) with
    | Return res => (Return (tabular_text str res),
                     after_release st (table_query table))
    | Raise e => (Raise e, after_leak st (table_query table))
    end
  /\ readResource self (RES_PREFIX +:+ table +:+ "/" +:+ tail) st
     = readResource self (RES_PREFIX +:+ table) st.
Proof.
  intros Htable.
  assert (forall suffix rest,
            Str.split "/" (table +:+ suffix) = table :: rest ->
            readResource self (RES_PREFIX +:+ table +:+ suffix) st
            = match driver (table_query table) with
              | Return res => (Return (tabular_text str res),
                               after_release st (table_query table))
              | Raise e => (Raise e, after_leak st (table_query table))
              end) as Hrun.
  { intros suffix rest Hsplit.
    apply (read_resource_run self _ table rest); [apply startswith_app|].
    by rewrite drop_app. }
  assert (readResource self (RES_PREFIX +:+ table) st
          = match driver (table_query table) with
            | Return res => (Return (tabular_text str res),
                             after_release st (table_query table))
            | Raise e => (Raise e, after_leak st (table_query table))
            end) as Hnone.
  { rewrite <- (append_empty_r table) at 1.
    apply (Hrun "" []). rewrite append_empty_r. by apply split_no_sep. }
  split; [exact Hnone|].
  rewrite Hnone. apply (Hrun ("/" +:+ tail) (Str.split "/" tail)).
  by apply split_first.
Qed.

(** The lines of a tabular answer, when no column name and no field text
    holds a line feed. *)
Lemma lines_tabular_text (res : ResultSet Field) :
  Forall (fun c => has_char Str.LF c = false) (column_names res) ->
  Forall (Forall (fun f => has_char Str.LF (str f) = false)) (rows res) ->
  lines (tabular_text str res)
  = Str.join "," (column_names res)
    :: List.map (fun row => Str.join "," (List.map str row)) (rows res).
Proof.
  intros Hcols Hrows. unfold lines, tabular_text.
  apply split_join; [done|].
  constructor.
  - by apply has_char_join.
  - apply Forall_map. eapply Forall_impl; [exact Hrows|].
    intros row Hrow. apply has_char_join; [done|]. by apply Forall_map.
Qed.

(** C4 (amended): for an approved query that starts, trimmed and
    uppercased, with [SELECT] or [DESCRIBE], once the driver has returned
    its cursor the text is the column names joined by commas, then one
    line per row in the cursor's order, the fields joined by commas,
    nothing quoted or escaped.  When no column name and no field text
    holds a line feed, these are the lines of the text, so that as many
    lines follow the first as there are rows; when also there is a column
    and no column name holds a comma, the fields of the first line are
    the column names. *)
Theorem call_tool_tabular (self : DatabaseServer)
    (arguments : gmap string string) (query : string) (st : PoolState)
    (res : ResultSet Field) :
  arguments !! "query" = Some query -> query <> "" ->
  fst (security_gate query) = false ->
  Str.startswith (Str.upper unicode_upper (Str.strip query)) "SELECT"
  || Str.startswith (Str.upper unicode_upper (Str.strip query)) "DESCRIBE" = true ->
  driver query = Return res ->
  fst (callTool self "execute_sql" arguments st)
  = Return [text_content
              (Str.join Str.NL
                 (Str.join "," (column_names res)
                  :: List.map (fun row => Str.join "," (List.map str row))
                       (rows res)))]
  /\ (Forall (fun c => has_char Str.LF c = false) (column_names res) ->
      Forall (Forall (fun f => has_char Str.LF (str f) = false)) (rows res) ->
      lines (tabular_text str res)
      = Str.join "," (column_names res)
        :: List.map (fun row => Str.join "," (List.map str row)) (rows res)
      /\ List.length (List.tl (lines (tabular_text str res)))
         = List.length (rows res)
      /\ (column_names res <> [] ->
          Forall (fun c => has_char "," c = false) (column_names res) ->
          fields (List.hd "" (lines (tabular_text str res))) = column_names res
          /\ tabular_counts res (tabular_text str res))).
Proof.
  intros Hq Hne Hgate Hprefix Hdriver. split.
  - by rewrite (call_tool_run _ _ _ _ Hq Hne Hgate), Hdriver,
      (select_not_show _ Hprefix), Hprefix.
  - intros Hcols Hrows.
    pose proof (lines_tabular_text res Hcols Hrows) as Hlines.
    split; [exact Hlines|].
    split; [rewrite Hlines; simpl; apply length_map|].
    intros Hsome Hcomma.
    assert (fields (List.hd "" (lines (tabular_text str res))) = column_names res)
      as Hfields.
    { rewrite Hlines. simpl. unfold fields. by apply split_join. }
    split; [exact Hfields|].
    unfold tabular_counts. rewrite Hfields. split; [done|].
    rewrite Hlines. simpl. apply length_map.
Qed.

End GatewayFacts.

Lemma sessions_released_witness :
  snd (list_resources any_url0 (fun f : string => f) driver0 server0 initial)
  = {| in_use := []; next_session := 1;
       log := [GetSession 0; Execute 0 "SHOW TABLES"; Close 0] |}
  /\ snd (read_resource (fun f : string => f) driver0 server0
            "iotdb://sensors/data" initial)
     = {| in_use := []; next_session := 1;
          log := [GetSession 0; Execute 0 "SELECT * FROM sensors LIMIT 100";
                  Close 0] |}
  /\ snd (call_tool (fun c : string => c) (fun f : string => f) SecurityGate.security_gate driver0
            server0 "execute_sql" (query_args "SHOW TABLES") initial)
     = {| in_use := []; next_session := 1;
          log := [GetSession 0; Execute 0 "SHOW TABLES"; Close 0] |}
  /\ snd (call_tool (fun c : string => c) (fun f : string => f) SecurityGate.security_gate driver0
            server0 "execute_sql" (query_args "DROP TABLE root.sg.d1") initial)
     = initial
  /\ read_resource (fun f : string => f) driver0 server0
       "iotdb://missing/data" initial
     = (Raise (DriverError "550: Table 'db.missing' does not exist."),
        {| in_use := [0]; next_session := 1;
           log := [GetSession 0; Execute 0 "SELECT * FROM missing LIMIT 100"] |})
  /\ list_resources any_url0 (fun f : string => f) (fun _ => Return spaced)
       server0 initial
     = (Raise (ValidationError "Input should be a valid URL"),
        {| in_use := [0]; next_session := 1;
           log := [GetSession 0; Execute 0 "SHOW TABLES"] |}).
Proof.
  destruct (sessions_released (fun c : string => c) any_url0
              (fun f : string => f) SecurityGate.security_gate
              driver0 server0 initial)
    as (Hlist & Hread & Hcall & Hreject & _ & _ & Hread_error & _).
  split.
  { apply (Hlist {| column_names := ["TableName"; "TTL(ms)"];
                    rows := [["a"; "INF"]; ["b"; "INF"]] |}
                 [("a", ["INF"]); ("b", ["INF"])]
                 ["iotdb://a/data"; "iotdb://b/data"]);
      [reflexivity | reflexivity | repeat constructor]. }
  split.
  { apply (Hread "iotdb://sensors/data" "sensors" ["data"] sensors); reflexivity. }
  split.
  { apply (Hcall (query_args "SHOW TABLES") "SHOW TABLES"
                 {| column_names := ["TableName"; "TTL(ms)"];
                    rows := [["a"; "INF"]; ["b"; "INF"]] |});
      [reflexivity | discriminate | reflexivity | reflexivity |].
    right. split; [reflexivity|].
    exists [("a", ["INF"]); ("b", ["INF"])]. reflexivity. }
  split.
  { apply (Hreject (query_args "DROP TABLE root.sg.d1") "DROP TABLE root.sg.d1");
      [reflexivity | discriminate | reflexivity]. }
  split.
  { apply (Hread_error "iotdb://missing/data" "missing" ["data"]); reflexivity. }
  destruct (sessions_released (fun c : string => c) any_url0
              (fun f : string => f) SecurityGate.security_gate
              (fun _ => Return spaced) server0 initial)
    as (_ & _ & _ & _ & _ & Hrefused & _).
  apply (Hrefused spaced [("a", [])] ["iotdb://a/data"] "my table" [] []);
    [reflexivity | reflexivity | repeat constructor | reflexivity].
Defined.

(** C1 as it is stated fails when the driver raises: [read_resource] on a
    table that does not exist acquires a session, and the exception leaves
    the handler before the session is released. *)
Lemma sessions_released_counterexample :
  ~ releases_its_session
      (read_resource (fun f : string => f) driver0 server0 "iotdb://missing/data")
      initial.
Proof.
  intros (events & Hlog & Honce). simpl in Hlog. subst events.
  specialize (Honce 0 (or_introl eq_refl)). vm_compute in Honce.
  discriminate Honce.
Qed.

Example call_tool_set_something_leaks :
  call_tool (fun c : string => c) (fun f : string => f) SecurityGate.security_gate driver0 server0
    "execute_sql" (query_args "SET SOMETHING") initial
  = (Return [text_content "Error executing query"],
     {| in_use := [0]; next_session := 1;
        log := [GetSession 0; Execute 0 "SET SOMETHING"] |}).
Proof. reflexivity. Qed.

(** Whitespace and letters outside ASCII count for the statement's kind. *)
Example call_tool_no_break_space :
  fst (call_tool unicode_upper0 (fun f : string => f) SecurityGate.security_gate
         driver1 server0 "execute_sql"
         (query_args (no_break_space +:+ "select 1")) initial)
  = Return [text_content ("time,temp" +:+ Str.NL +:+ "1,23.5")].
Proof. reflexivity. Qed.

Example call_tool_long_s :
  fst (call_tool unicode_upper0 (fun f : string => f) SecurityGate.security_gate
         driver1 server0 "execute_sql"
         (query_args (long_s +:+ "elect 1")) initial)
  = Return [text_content ("time,temp" +:+ Str.NL +:+ "1,23.5")].
Proof. reflexivity. Qed.

Lemma call_tool_dangerous_witness :
  call_tool (fun c : string => c) (fun f : string => f) SecurityGate.security_gate driver0 server0
    "execute_sql" (query_args "DROP TABLE root.sg.d1") initial
  = (Return [text_content "Error: Contain dangerous operations, reason:DROP"],
     initial).
Proof.
  apply (call_tool_dangerous (fun c : string => c) (fun f : string => f) SecurityGate.security_gate
           driver0 server0 (query_args "DROP TABLE root.sg.d1")
           "DROP TABLE root.sg.d1" "DROP" initial);
    [reflexivity | discriminate | reflexivity].
Defined.

Lemma validation_errors_witness :
  call_tool (fun c : string => c) (fun f : string => f) SecurityGate.security_gate driver0 server0
    "drop_everything" (query_args "SELECT 1") initial
  = (Raise (ValueError "Unknown tool: drop_everything"), initial)
  /\ call_tool (fun c : string => c) (fun f : string => f) SecurityGate.security_gate driver0 server0
       "execute_sql" ∅ initial
     = (Raise (ValueError "Query is required"), initial)
  /\ call_tool (fun c : string => c) (fun f : string => f) SecurityGate.security_gate driver0 server0
       "execute_sql" (query_args "") initial
     = (Raise (ValueError "Query is required"), initial)
  /\ read_resource (fun f : string => f) driver0 server0 "http://sensors/data" initial
     = (Raise (ValueError "Invalid URI scheme: http://sensors/data"), initial).
Proof.
  destruct (validation_errors (fun c : string => c) (fun f : string => f) SecurityGate.security_gate
              driver0 server0 initial) as (Hname & Hquery & Huri).
  split; [apply Hname; discriminate|].
  split; [apply Hquery; left; reflexivity|].
  split; [apply Hquery; right; reflexivity|].
  apply Huri; reflexivity.
Defined.

Lemma call_tool_other_statement_witness :
  fst (call_tool (fun c : string => c) (fun f : string => f)
         SecurityGate.security_gate driver1 server0
         "execute_sql" (query_args "SET SOMETHING") initial)
  = Return [text_content "Error executing query"].
Proof.
  apply (call_tool_other_statement (fun c : string => c) (fun f : string => f)
           SecurityGate.security_gate driver1 server0
           (query_args "SET SOMETHING") "SET SOMETHING" initial);
    [reflexivity | discriminate | reflexivity..].
Defined.

(** C8 as it is stated fails when the driver raises: the approved query
    [SET SOMETHING] is then answered with no text at all, the exception of
    the driver leaves [call_tool]. *)
Lemma call_tool_other_statement_counterexample :
  SecurityGate.security_gate "SET SOMETHING" = (false, "")
  /\ Str.startswith (Str.upper (fun c => c) (Str.strip "SET SOMETHING")) "SHOW TABLES"
     = false
  /\ Str.startswith (Str.upper (fun c => c) (Str.strip "SET SOMETHING")) "SELECT"
     = false
  /\ Str.startswith (Str.upper (fun c => c) (Str.strip "SET SOMETHING")) "DESCRIBE"
     = false
  /\ ~ answers_with_diagnostic
         (call_tool (fun c : string => c) (fun f : string => f)
            SecurityGate.security_gate driver_down server0
            "execute_sql" (query_args "SET SOMETHING"))
         initial.
Proof.
  repeat (split; [reflexivity|]).
  unfold answers_with_diagnostic. vm_compute. discriminate.
Qed.

Lemma call_tool_prefix_is_tabular_witness :
  fst (call_tool (fun c : string => c) (fun f : string => f) SecurityGate.security_gate driver1 server0
         "execute_sql" (query_args "  selected * from sensors") initial)
  = Return [text_content ("time,temp" +:+ Str.NL +:+ "1,23.5")].
Proof.
  apply (call_tool_prefix_is_tabular (fun c : string => c) (fun f : string => f)
           SecurityGate.security_gate driver1 server0
           (query_args "  selected * from sensors") "  selected * from sensors"
           initial sensors);
    [reflexivity | discriminate | reflexivity..].
Defined.

Lemma call_tool_show_tables_witness :
  fst (call_tool (fun c : string => c) (fun f : string => f) SecurityGate.security_gate driver0 server0
         "execute_sql" (query_args "SHOW TABLES") initial)
  = Return [text_content ("Tables_in_db" +:+ Str.NL +:+ "a" +:+ Str.NL +:+ "b")].
Proof.
  refine (proj1 (call_tool_show_tables (fun c : string => c) (fun f : string => f) SecurityGate.security_gate
           driver0 server0 (query_args "SHOW TABLES") "SHOW TABLES" initial
           {| column_names := ["TableName"; "TTL(ms)"];
              rows := [["a"; "INF"]; ["b"; "INF"]] |}
           [("a", ["INF"]); ("b", ["INF"])] _ _ _ _ _ _));
    [reflexivity | discriminate | reflexivity..].
Defined.

Lemma read_resource_table_witness :
  read_resource (fun f : string => f) driver0 server0 "iotdb://sensors" initial
  = (Return ("time,temp" +:+ Str.NL +:+ "1,23.5"),
     {| in_use := []; next_session := 1;
        log := [GetSession 0; Execute 0 "SELECT * FROM sensors LIMIT 100"; Close 0] |})
  /\ read_resource (fun f : string => f) driver0 server0
       "iotdb://sensors/anything/else" initial
     = read_resource (fun f : string => f) driver0 server0 "iotdb://sensors" initial.
Proof.
  destruct (read_resource_table (fun f : string => f) driver0 server0
              "sensors" "anything/else" initial) as [Hrun Hsame];
    [reflexivity|].
  split; [exact Hrun | exact Hsame].
Defined.

(** C4 as it is stated fails on a cursor with a text field that holds a
    line break: the answer to an approved [SELECT] has two lines after the
    first one for the single row of the cursor. *)
Lemma tabular_counts_counterexample :
  fst (call_tool (fun c : string => c) (fun f : string => f) SecurityGate.security_gate
         (fun _ => Return notes) server0 "execute_sql"
         (query_args "SELECT note FROM log") initial)
  = Return [text_content ("note" +:+ Str.NL +:+ "first" +:+ Str.NL +:+ "second")]
  /\ ~ tabular_counts notes ("note" +:+ Str.NL +:+ "first" +:+ Str.NL +:+ "second").
Proof.
  split; [reflexivity|].
  intros [_ Hrows]. vm_compute in Hrows. discriminate Hrows.
Qed.

Lemma call_tool_tabular_witness :
  fst (call_tool (fun c : string => c) (fun f : string => f) SecurityGate.security_gate driver1 server0
         "execute_sql" (query_args "select * from sensors") initial)
  = Return [text_content ("time,temp" +:+ Str.NL +:+ "1,23.5")]
  /\ lines ("time,temp" +:+ Str.NL +:+ "1,23.5") = ["time,temp"; "1,23.5"]
  /\ fields "time,temp" = ["time"; "temp"]
  /\ tabular_counts sensors ("time,temp" +:+ Str.NL +:+ "1,23.5").
Proof.
  destruct (call_tool_tabular (fun c : string => c) (fun f : string => f) SecurityGate.security_gate
              driver1 server0 (query_args "select * from sensors")
              "select * from sensors" initial sensors)
    as [Htext Hshape];
    [reflexivity | discriminate | reflexivity | reflexivity | reflexivity |].
  split; [exact Htext|].
  destruct Hshape as (Hlines & _ & Hcols).
  { repeat constructor. }
  { repeat constructor. }
  split; [exact Hlines|].
  destruct Hcols as [Hfields Hcounts]; [discriminate | repeat constructor |].
  split; [exact Hfields | exact Hcounts].
Defined.

(** ** [replace] and [get_prompt] *)

Lemma length_append (a b : string) :
  String.length (a +:+ b) = String.length a + String.length b.
Proof. induction a; simpl; congruence. Qed.

Lemma replace_from_skip (a old new rest : string) :
  Str.replace_from (String.length a) old new (a +:+ rest)
  = Str.replace_from 0 old new rest.
Proof. induction a as [|c a IH]; simpl; [by destruct rest|exact IH]. Qed.

Lemma occurs_cons (old s : string) (c : ascii) :
  occurs old (String c s) ->
  Str.startswith (String c s) old = true \/ occurs old s.
Proof.
  intros ([|a pre] & post & H).
  - left. simpl in H. rewrite H. apply startswith_app.
  - right. simpl in H. injection H as _ H. by exists pre, post.
Qed.

Lemma replaced_cons (old new s r : string) (c : ascii) :
  Str.startswith (String c s) old = false ->
  replaced old new s r ->
  replaced old new (String c s) (String c r).
Proof.
  intros Hstart Hr. destruct Hr as [s Hnone | pre rest rest' Hfirst Hrest].
  - apply replaced_none. intros [H|H]%occurs_cons; [congruence|done].
  - apply (replaced_first old new (String c pre) rest rest'); [|done].
    intros [|a pre'] post' H.
    + exfalso. simpl in H.
      change (String c (pre +:+ old +:+ rest)) with (String c pre +:+ old +:+ rest) in H.
      assert (Str.startswith (String c (pre +:+ old +:+ rest)) old = true) as E.
      { simpl in H. rewrite H. apply startswith_app. }
      congruence.
    + simpl in H. injection H as _ H. apply Hfirst in H. simpl. lia.
Qed.

(** [replace] does what [replaced] says, for every [old] that is not empty. *)
Lemma replace_from_spec (old new : string) (n : nat) :
  old <> "" ->
  forall s, String.length s <= n ->
            replaced old new s (Str.replace_from 0 old new s).
Proof.
  intros Hold. induction n as [|n IH]; intros s Hlen.
  - destruct s; [|simpl in Hlen; lia].
    simpl. apply replaced_none. intros (pre & post & H).
    destruct pre; [|done]. destruct old; done.
  - destruct s as [|c s].
    { simpl. apply replaced_none. intros (pre & post & H).
      destruct pre; [|done]. destruct old; done. }
    cbn [Str.replace_from].
    destruct (Str.startswith (String c s) old) eqn:Hstart.
    + destruct (startswith_inv _ _ Hstart) as [rest Hs].
      destruct old as [|a old]; [done|].
      simpl in Hs. injection Hs as -> ->.
      replace (String.length (String a old) - 1) with (String.length old)
        by (simpl; lia).
      rewrite replace_from_skip.
      apply (replaced_first (String a old) new "" rest).
      * intros pre' post' _. simpl. lia.
      * apply IH. simpl in Hlen. rewrite length_append in Hlen. lia.
    + apply replaced_cons; [done|]. apply IH. simpl in Hlen. lia.
Qed.

Lemma replace_spec (old new s : string) :
  old <> "" -> replaced old new s (Str.replace old new s).
Proof.
  intros Hold. unfold Str.replace. destruct old as [|a old]; [done|].
  by apply (replace_from_spec _ _ (String.length s)).
Qed.

Lemma placeholder_not_empty (key : string) : placeholder key <> "".
Proof. done. Qed.

Lemma substitute_spec (items : list (string * string)) (s : string) :
  substituted items s (substitute items s).
Proof.
  revert s; induction items as [|[key value] items IH]; intros s; simpl.
  - constructor.
  - econstructor; [|apply IH]. apply replace_spec, placeholder_not_empty.
Qed.

(** With one argument, the replacement is the single pass of [expand]. *)
Lemma expand_from_one (key value s : string) (skip : nat) :
  expand_from skip [(key, value)] s
  = Str.replace_from skip (placeholder key) value s.
Proof.
  revert skip; induction s as [|c s IH]; intros skip; [done|].
  cbn [expand_from Str.replace_from]. destruct skip as [|k]; [|apply IH].
  unfold placeholder_at. cbn [find fst].
  destruct (Str.startswith (String c s) (placeholder key)); by rewrite IH.
Qed.

Lemma append_same_length (a b x y : string) :
  a +:+ x = b +:+ y -> String.length a = String.length b -> a = b /\ x = y.
Proof.
  revert b; induction a as [|c a IH]; intros [|d b] H Hlen; simpl in *; try done.
  injection H as -> H. destruct (IH b H) as [-> ->]; [lia|done].
Qed.

(** [replaced] leaves no choice: it has one result for a text. *)
Lemma replaced_functional (old new s r1 r2 : string) :
  replaced old new s r1 -> replaced old new s r2 -> r1 = r2.
Proof.
  intros H1; revert r2.
  induction H1 as [s Hnone | pre rest rest' Hfirst Hrest IH]; intros r2 H2.
  - inversion H2 as [|pre2 rest2 rest2' Hfirst2 Hrest2 Hs]; [done|].
    exfalso. apply Hnone. subst. by exists pre2, rest2.
  - remember (pre +:+ old +:+ rest) as s eqn:Hs.
    destruct H2 as [s Hnone | pre2 rest2 rest2' Hfirst2 Hrest2].
    + exfalso. apply Hnone. subst. by exists pre, rest.
    + pose proof (Hfirst _ _ eq_refl) as Hle1.
      pose proof (Hfirst2 _ _ Hs) as Hle2.
      destruct (append_same_length _ _ _ _ Hs) as [-> Heq]; [lia|].
      apply String.app_inj in Heq as ->.
      by rewrite (IH _ Hrest2).
Qed.

Lemma substituted_functional (items : list (string * string)) (s r1 r2 : string) :
  substituted items s r1 -> substituted items s r2 -> r1 = r2.
Proof.
  intros H1; revert r2.
  induction H1 as [s | key value items s s' s'' Hr Hs IH]; intros r2 H2.
  - by inversion H2.
  - inversion H2 as [|key2 value2 items2 t t' t'' Hr2 Hs2]; subst.
    rewrite <- (replaced_functional _ _ _ _ _ Hr Hr2) in Hs2. by apply IH.
Qed.

Lemma get_prompt_text (self : DatabaseServer) (name : string)
    (arguments : option (list (string * string))) (t : Template) :
  templates self !! name = Some t ->
  get_prompt self name arguments
  = Return {| gp_description := tpl_description t;
              gp_messages :=
                [ {| pm_role := "user";
                     pm_content :=
                       text_content (substitute (items_of arguments) (tpl_template t)) |} ] |}.
Proof.
  intros Ht. unfold get_prompt. rewrite Ht.
  by destruct arguments as [[|kv items]|].
Qed.

(** C6 (amended): an unknown prompt name makes [get_prompt] raise a
    [ValueError].  For a known name the text is the template rewritten once
    per supplied argument, in the order of the arguments: each step
    replaces, from left to right, every occurrence of the placeholder
    "{{ name }}" in the text obtained so far by the argument's value and
    changes nothing else.  This fixes the text.  Without arguments it is
    the template; with one argument it is the template with every
    occurrence of the placeholder replaced and nothing else changed. *)
Theorem get_prompt_spec (self : DatabaseServer) (name : string)
    (arguments : option (list (string * string))) :
  match templates self !! name with
  | None =>
      get_prompt self name arguments
      = Raise (ValueError ("Unknown template: " +:+ name))
  | Some t =>
      exists text,
        get_prompt self name arguments
        = Return {| gp_description := tpl_description t;
                    gp_messages :=
                      [ {| pm_role := "user"; pm_content := text_content text |} ] |}
        /\ substituted (items_of arguments) (tpl_template t) text
        /\ (forall r, substituted (items_of arguments) (tpl_template t) r -> r = text)
        /\ (items_of arguments = [] -> text = tpl_template t)
        /\ (forall key value, arguments = Some [(key, value)] ->
            replaced (placeholder key) value (tpl_template t) text
            /\ text = expand [(key, value)] (tpl_template t))
  end.
Proof.
  destruct (templates self !! name) as [t|] eqn:Ht.
  - exists (substitute (items_of arguments) (tpl_template t)).
    split; [by apply get_prompt_text|].
    split; [apply substitute_spec|].
    split.
    { intros r Hr. eapply substituted_functional; [exact Hr|apply substitute_spec]. }
    split; [by intros ->|].
    intros key value ->. simpl. split.
    + apply replace_spec, placeholder_not_empty.
    + unfold expand. by rewrite expand_from_one.
  - unfold get_prompt. by rewrite Ht.
Qed.

(** C6 as it is stated fails when an argument's value holds the
    placeholder of a later argument: the later replacement rewrites the
    value that the earlier one put in. *)
Lemma get_prompt_counterexample :
  ~ get_prompt_expands server1 "ask" (Some nested_arguments).
Proof.
  intros H. specialize (H _ eq_refl). vm_compute in H. discriminate H.
Qed.

Example get_prompt_nested :
  get_prompt server1 "ask" (Some nested_arguments)
  = Return {| gp_description := "A question";
              gp_messages :=
                [ {| pm_role := "user";
                     pm_content := text_content "Tell me about X, not {{ c }}." |} ] |}
  /\ expand nested_arguments "Tell me about {{ a }}, not {{ c }}."
     = "Tell me about {{ b }}, not {{ c }}.".
Proof. split; reflexivity. Qed.

Lemma get_prompt_spec_witness :
  get_prompt server1 "missing" None = Raise (ValueError "Unknown template: missing")
  /\ exists text,
       get_prompt server1 "ask" (Some [("a", "IoTDB")])
       = Return {| gp_description := "A question";
                   gp_messages :=
                     [ {| pm_role := "user"; pm_content := text_content text |} ] |}
       /\ text = "Tell me about IoTDB, not {{ c }}.".
Proof.
  split.
  - exact (get_prompt_spec server1 "missing" None).
  - destruct (get_prompt_spec server1 "ask" (Some [("a", "IoTDB")]))
      as (text & Hres & _ & _ & _ & Hone).
    exists text. split; [exact Hres|].
    destruct (Hone "a" "IoTDB" eq_refl) as [_ ->]. reflexivity.
Defined.

(** ** The security gate *)

Module GateFacts.

Import SecurityGate GateSpec.

Lemma lit_after_parity (pre : string) (lit : bool) :
  lit_after lit pre = xorb lit (Nat.odd (quotes pre)).
Proof.
  revert lit; induction pre as [|c pre IH]; intros lit; simpl.
  - by destruct lit.
  - rewrite IH. destruct (Ascii.eqb c QUOTE); simpl.
    + rewrite Nat.odd_succ, <- Nat.negb_odd.
      by destruct lit, (Nat.odd (quotes pre)).
    + by destruct lit.
Qed.


Lemma lit_after_unterminated (s : string) :
  lit_after false s = true <-> unterminated s.
Proof. unfold unterminated. by rewrite lit_after_parity. Qed.

Lemma word_char_not_quote (c : ascii) :
  is_word_char c = true -> Ascii.eqb c QUOTE = false.
Proof.
  destruct (Ascii.eqb_spec c QUOTE) as [->|]; [|done].
  vm_compute. intros H; discriminate H.
Qed.











(** The pass ends outside the literals when the quotes are paired. *)
Lemma tokenize_closed (s : string) :
  forall lit cur, snd (tokenize lit cur s) = negb (lit_after lit s).
Proof.
  induction s as [|c s IH]; intros lit cur; [done|].
  cbn [tokenize lit_after]. destruct lit.
  - rewrite IH. cbn [xorb]. done.
  - destruct (is_word_char c) eqn:Hc.
    + by rewrite IH, (word_char_not_quote _ Hc).
    + specialize (IH (Ascii.eqb c QUOTE) "").
      by destruct (tokenize (Ascii.eqb c QUOTE) "" s) as [ts closed].
Qed.



Lemma tokens_closed (s : string) :
  snd (tokenize false "" s) = true <-> ~ unterminated s.
Proof.
  rewrite tokenize_closed, <- lit_after_unterminated.
  by destruct (lit_after false s).
Qed.




















End GateFacts.

Import SecurityGate GateSpec.




(** * Further properties of the handlers *)

Lemma split_nonempty (c : ascii) (s : string) :
  exists t rest, Str.split c s = t :: rest.
Proof.
  induction s as [|a s (t & rest & IH)]; simpl; [by eexists _, _|].
  destruct (Ascii.eqb a c); [by eexists _, _|].
  rewrite IH. by eexists _, _.
Qed.

Section Footprints.

Context {Field : Type}.
Variable unicode_upper : string -> string.
Variable any_url : string -> outcome string.
Variable str : Field -> string.
Variable security_gate : string -> bool * string.
Variable driver : string -> outcome (ResultSet Field).

Local Abbreviation callTool := (call_tool unicode_upper str security_gate driver).
Local Abbreviation readResource := (read_resource str driver).
Local Abbreviation listResources := (list_resources any_url str driver).

(** [call_tool] on any input: the pool is left alone, or the statement
    is the [query] argument, approved by the gate. *)
Lemma call_tool_cases (self : DatabaseServer) (name : string)
    (arguments : gmap string string) (st : PoolState) :
  snd (callTool self name arguments st) = st
  \/ exists query,
       name = "execute_sql" /\ arguments !! "query" = Some query
       /\ fst (security_gate query) = false
       /\ (snd (callTool self name arguments st) = after_leak st query
           \/ snd (callTool self name arguments st) = after_release st query).
Proof.
  destruct (String.eqb_spec name "execute_sql") as [->|Hname].
  - destruct (arguments !! "query") as [query|] eqn:Hq.
    + destruct (decide (query = "")) as [->|Hne].
      { left. unfold call_tool. by rewrite Hq. }
      destruct (fst (security_gate query)) eqn:Hgate.
      { left. by rewrite (call_tool_gate _ _ _ _ _ _ _ Hq Hne), Hgate. }
      right. exists query. repeat split; try done.
      rewrite (call_tool_run _ _ _ _ _ _ _ _ Hq Hne Hgate).
      destruct (driver query) as [res|e]; [|by left].
      destruct (Str.startswith _ "SHOW TABLES").
      * destruct (first_fields_loop _ _ _); [by right|by left].
      * destruct (_ || _); [by right|by left].
    + left. unfold call_tool. by rewrite Hq.
  - left. unfold call_tool. apply String.eqb_neq in Hname. by rewrite Hname.
Qed.

Lemma read_resource_cases (self : DatabaseServer) (uri_str : string)
    (st : PoolState) :
  footprint st (snd (readResource self uri_str st)).
Proof.
  destruct (Str.startswith uri_str RES_PREFIX) eqn:Hprefix.
  - destruct (split_nonempty "/" (Str.drop (String.length RES_PREFIX) uri_str))
      as (table & rest & Hsplit).
    rewrite (read_resource_run _ _ _ _ _ _ _ Hprefix Hsplit).
    right. exists (table_query table).
    destruct (driver _); [by right|by left].
  - left. unfold read_resource. by rewrite Hprefix.
Qed.

Lemma list_resources_cases (self : DatabaseServer) (st : PoolState) :
  footprint st (snd (listResources self st)).
Proof.
  rewrite list_resources_run. right. exists "SHOW TABLES".
  destruct (driver _) as [res|e]; [|by left].
  destruct (resources_loop _ _ _ _); [by right|by left].
Qed.

Lemma footprint_pool_ok (st st' : PoolState) :
  pool_ok st -> footprint st st' -> pool_ok st'.
Proof.
  intros [Hnodup Hbound] Hfoot.
  assert (~ In (next_session st) (in_use st)) as Hfresh.
  { intros Hin. rewrite Forall_forall in Hbound.
    apply list_elem_of_In, Hbound in Hin. lia. }
  assert (Forall (fun sid => sid < S (next_session st)) (in_use st)) as Hbound'.
  { eapply Forall_impl; [exact Hbound|]. intros sid Hsid. simpl in Hsid. lia. }
  destruct Hfoot as [->|(sql & [->| ->])]; [done| |].
  - split; simpl.
    + apply NoDup_cons. split; [by rewrite list_elem_of_In|done].
    + constructor; [lia|done].
  - split; rewrite after_release_in_use by done; simpl; done.
Qed.

(** X1: [call_tool] sends the driver nothing that the gate has not
    approved: a statement that an invocation adds to the history is the
    [query] argument as it was given, the gate's verdict on it is "not
    dangerous", and it runs on the session acquired for the invocation. *)
Theorem call_tool_executes_approved_only (self : DatabaseServer) (name : string)
    (arguments : gmap string string) (st : PoolState) (sid : nat) (sql : string) :
  In (Execute sid sql) (log (snd (callTool self name arguments st))) ->
  In (Execute sid sql) (log st)
  \/ (name = "execute_sql" /\ arguments !! "query" = Some sql
      /\ fst (security_gate sql) = false /\ sid = next_session st).
Proof.
  intros Hin.
  destruct (call_tool_cases self name arguments st)
    as [Hsame|(query & Hname & Hq & Hgate & [Hst|Hst])];
    rewrite ?Hsame, ?Hst in Hin; [by left| |]; simpl in Hin;
    apply in_app_iff in Hin as [Hin|Hin]; try (by left); right;
    simpl in Hin; destruct Hin as [Hin|[Hin|Hin]]; try done;
    try (by destruct Hin); injection Hin as <- <-; done.
Qed.

(** X2: whatever the input and whatever the driver does, an invocation of
    [list_resources], [read_resource] or [call_tool] leaves the pool as it
    was, or acquires one session and executes one statement on it, with or
    without one release of that session: no second acquisition, statement
    or release, and no release of another session. *)
Theorem handlers_footprint (self : DatabaseServer) (st : PoolState) :
  footprint st (snd (listResources self st))
  /\ (forall uri_str, footprint st (snd (readResource self uri_str st)))
  /\ (forall name arguments,
        footprint st (snd (callTool self name arguments st))).
Proof.
  split; [apply list_resources_cases|].
  split; [intros uri_str; apply read_resource_cases|].
  intros name arguments.
  destruct (call_tool_cases self name arguments st)
    as [Hsame|(query & _ & _ & _ & [Hst|Hst])].
  - by left.
  - right. exists query. by left.
  - right. exists query. by right.
Qed.

(** X5: a row without fields makes [get_fields()[0]] raise.  When the
    cursor has such a row, the [SHOW TABLES] branch of [call_tool] ends with
    an [IndexError], whatever the other rows hold, and so does
    [list_resources] when the rows before it have a first field whose URI
    is accepted as a URL; the session acquired is not released. *)
Theorem row_without_fields (self : DatabaseServer) (st : PoolState)
    (res : ResultSet Field) :
  (forall rs1 uris rs2,
      rows res = List.map (fun t => fst t :: snd t) rs1 ++ [] :: rs2 ->
      validated any_url str rs1 uris ->
      driver "SHOW TABLES" = Return res ->
      listResources self st = (Raise IndexError, after_leak st "SHOW TABLES"))
  /\ (forall rs1 rs2 arguments query,
        rows res = rs1 ++ [] :: rs2 ->
        arguments !! "query" = Some query -> query <> "" ->
        fst (security_gate query) = false ->
        Str.startswith (Str.upper unicode_upper (Str.strip query)) "SHOW TABLES" = true ->
        driver query = Return res ->
        callTool self "execute_sql" arguments st
        = (Raise IndexError, after_leak st query)).
Proof.
  split.
  - intros rs1 uris rs2 Hrows Hurls Hdriver.
    by rewrite list_resources_run, Hdriver, Hrows,
      (resources_loop_raises _ _ _ _ [] _ IndexError _ Hurls eq_refl).
  - intros rs1 rs2 arguments query Hrows Hq Hne Hgate Hshow Hdriver.
    by rewrite (call_tool_run _ _ _ _ _ _ _ _ Hq Hne Hgate), Hdriver, Hshow, Hrows,
      first_fields_loop_empty_row.
Qed.

(** X13: whenever [call_tool] returns, its answer is a list of exactly one
    content item, of type "text". *)
Theorem call_tool_answer_shape (self : DatabaseServer) (name : string)
    (arguments : gmap string string) (st : PoolState)
    (answer : list TextContent) :
  fst (callTool self name arguments st) = Return answer ->
  exists text, answer = [ {| tc_type := "text"; tc_text := text |} ].
Proof.
  destruct (String.eqb_spec name "execute_sql") as [->|Hname].
  - destruct (arguments !! "query") as [query|] eqn:Hq.
    + destruct (decide (query = "")) as [->|Hne].
      { unfold call_tool. by rewrite Hq. }
      destruct (fst (security_gate query)) eqn:Hgate.
      { rewrite (call_tool_gate _ _ _ _ _ _ _ Hq Hne), Hgate.
        intros [= <-]. by eexists. }
      rewrite (call_tool_run _ _ _ _ _ _ _ _ Hq Hne Hgate).
      destruct (driver query) as [res|e]; [|done].
      destruct (Str.startswith _ "SHOW TABLES").
      * destruct (first_fields_loop _ _ _); [|done]. intros [= <-]. by eexists.
      * destruct (_ || _); intros [= <-]; by eexists.
    + unfold call_tool. by rewrite Hq.
  - unfold call_tool. apply String.eqb_neq in Hname. by rewrite Hname.
Qed.

End Footprints.

Lemma call_tool_executes_approved_only_witness :
  In (Execute 0 "SHOW TABLES") (log initial)
  \/ ("execute_sql" = "execute_sql"
      /\ query_args "SHOW TABLES" !! "query" = Some "SHOW TABLES"
      /\ fst (SecurityGate.security_gate "SHOW TABLES") = false
      /\ 0 = next_session initial).
Proof.
  apply (call_tool_executes_approved_only (fun c : string => c) (fun f : string => f)
           SecurityGate.security_gate driver0 server0 "execute_sql"
           (query_args "SHOW TABLES") initial 0 "SHOW TABLES").
  simpl. right. left. reflexivity.
Defined.

Lemma row_without_fields_witness :
  list_resources any_url0 (fun f : string => f) (fun _ => Return ragged) server0 initial
  = (Raise IndexError,
     {| in_use := [0]; next_session := 1;
        log := [GetSession 0; Execute 0 "SHOW TABLES"] |}).
Proof.
  refine (proj1 (row_without_fields (fun c : string => c) any_url0
            (fun f : string => f) SecurityGate.security_gate
            (fun _ => Return ragged) server0 initial ragged)
            [("a", [])] ["iotdb://a/data"] [["b"]] _ _ _);
    [reflexivity | repeat constructor | reflexivity].
Defined.

Lemma call_tool_answer_shape_witness :
  exists text,
    [text_content ("Tables_in_db" +:+ Str.NL +:+ "a" +:+ Str.NL +:+ "b")]
    = [ {| tc_type := "text"; tc_text := text |} ].
Proof.
  apply (call_tool_answer_shape (fun c : string => c) (fun f : string => f) SecurityGate.security_gate
           driver0 server0 "execute_sql" (query_args "SHOW TABLES") initial).
  reflexivity.
Defined.

Lemma other_statement_keeps_session_witness :
  call_tool (fun c : string => c) (fun f : string => f) SecurityGate.security_gate driver1 server0
    "execute_sql" (query_args "SHOW DATABASES") initial
  = (Return [text_content "Error executing query"],
     {| in_use := [0]; next_session := 1;
        log := [GetSession 0; Execute 0 "SHOW DATABASES"] |}).
Proof.
  refine (proj1 (other_statement_keeps_session (fun c : string => c) (fun f : string => f)
            SecurityGate.security_gate driver1 server0
            (query_args "SHOW DATABASES") "SHOW DATABASES" initial sensors
            _ _ _ _ _ _ _)); (reflexivity || discriminate).
Defined.


(** ** Resources: listing and reading *)

Lemma rev_app (a b : string) : Str.rev (a +:+ b) = Str.rev b +:+ Str.rev a.
Proof.
  induction a as [|c a IH]; simpl; [by rewrite append_empty_r|].
  by rewrite IH, append_assoc.
Qed.

Lemma rev_involutive (s : string) : Str.rev (Str.rev s) = s.
Proof.
  induction s as [|c s IH]; simpl; [done|]. by rewrite rev_app, IH.
Qed.

(** A text that starts with a byte of no whitespace character keeps it
    under [lstrip], and one that ends with such a byte keeps it under
    [rstrip]. *)
Lemma lstrip_keeps (c : ascii) (s : string) :
  (forall x, Str.leading Str.whitespace (String c x) = None) ->
  Str.lstrip (String c s) = String c s.
Proof. intros H. unfold Str.lstrip. cbn [Str.strip_from]. by rewrite H. Qed.

Lemma rstrip_keeps (c : ascii) (s : string) :
  (forall x, Str.leading Str.whitespace_rev (String c x) = None) ->
  Str.rstrip (s +:+ String c "") = s +:+ String c "".
Proof.
  intros H. unfold Str.rstrip. rewrite rev_app.
  cbn [Str.rev String.append Str.strip_from]. rewrite H.
  cbn [Str.rev]. by rewrite rev_involutive.
Qed.

(** The statement [read_resource] sends is one that [call_tool] takes for
    a [SELECT]. *)
Lemma table_query_is_select (unicode_upper : string -> string) (table : string) :
  table_query table <> ""
  /\ Str.startswith (Str.upper unicode_upper (Str.strip (table_query table))) "SELECT"
     = true.
Proof.
  split; [done|].
  assert (table_query table
          = String "S" (("ELECT * FROM " +:+ table +:+ " LIMIT 10") +:+ String "0" ""))
    as ->.
  { unfold table_query. simpl. by rewrite !append_assoc. }
  unfold Str.strip. rewrite lstrip_keeps by reflexivity.
  change (String "S" (?x +:+ String "0" ""))
    with (String "S"%char x +:+ String "0"%char "").
  rewrite rstrip_keeps by reflexivity. reflexivity.
Qed.

Section Resources.

Context {Field : Type}.
Variable unicode_upper : string -> string.
Variable any_url : string -> outcome string.
Variable str : Field -> string.
Variable security_gate : string -> bool * string.
Variable driver : string -> outcome (ResultSet Field).

Local Abbreviation callTool := (call_tool unicode_upper str security_gate driver).
Local Abbreviation readResource := (read_resource str driver).
Local Abbreviation listResources := (list_resources any_url str driver).

(** [read_resource] on the text [iotdb://<table>/data]. *)
Lemma read_listed_resource (self : DatabaseServer) (table : string)
    (st : PoolState) :
  has_char "/" table = false ->
  readResource self (resource_uri table) st
  = match driver (table_query table) with
    | Return res => (Return (tabular_text str res),
                     after_release st (table_query table))
    | Raise e => (Raise e, after_leak st (table_query table))
    end.
Proof.
  intros Htable. unfold resource_uri.
  apply (read_resource_run str driver self _ table ["data"]).
  - apply startswith_app.
  - rewrite drop_app. by apply (split_first "/" table "data").
Qed.

(** X6: when every row of the [SHOW TABLES] cursor has a first field whose
    URI is accepted as a URL, [list_resources] returns one resource per
    row, in the cursor's order, named after the first field of the row and
    holding the URL that the validation gives for [iotdb://<table>/data].
    When that URL is this very text and the table's name holds no "/",
    [read_resource] on it sends [SELECT * FROM <table> LIMIT 100] for that
    very table. *)
Theorem listed_resources_are_readable (self : DatabaseServer) (st : PoolState)
    (tables : ResultSet Field) (rs : list (Field * list Field))
    (uris : list string) :
  driver "SHOW TABLES" = Return tables ->
  rows tables = List.map (fun t => fst t :: snd t) rs ->
  validated any_url str rs uris ->
  fst (listResources self st)
  = Return (zip_with (fun t uri => resource_with uri (str (fst t))) rs uris)
  /\ (forall t uri st',
        In (t, uri) (zip rs uris) ->
        uri = resource_uri (str (fst t)) ->
        has_char "/" (str (fst t)) = false ->
        readResource self uri st'
        = match driver (table_query (str (fst t))) with
          | Return res => (Return (tabular_text str res),
                           after_release st' (table_query (str (fst t))))
          | Raise e => (Raise e, after_leak st' (table_query (str (fst t))))
          end).
Proof.
  intros Hdriver Hrows Hurls. split.
  - by rewrite list_resources_run, Hdriver, Hrows,
      (resources_loop_spec _ _ _ _ _ Hurls).
  - intros t uri st' _ -> Hslash. by apply read_listed_resource.
Qed.

(** X8: reading a resource is the tool call with the statement that
    [read_resource] builds: when the gate approves [SELECT * FROM <table>
    LIMIT 100], [call_tool] with that query gives the text that
    [read_resource] gives for the table's URI, raises what it raises, and
    leaves the pool in the same state. *)
Theorem read_resource_as_tool_call (self : DatabaseServer) (table : string)
    (st : PoolState) :
  has_char "/" table = false ->
  fst (security_gate (table_query table)) = false ->
  callTool self "execute_sql" {[ "query" := table_query table ]} st
  = (match fst (readResource self (resource_uri table) st) with
     | Return text => Return [text_content text]
     | Raise e => Raise e
     end,
     snd (readResource self (resource_uri table) st)).
Proof.
  intros Htable Hgate.
  destruct (table_query_is_select unicode_upper table) as [Hne Hselect].
  rewrite (call_tool_run unicode_upper str security_gate driver self _
             (table_query table) st
             (lookup_singleton_eq _ _) Hne Hgate).
  rewrite (read_listed_resource self table st Htable).
  destruct (driver (table_query table)) as [res|e]; [|done].
  assert (Str.startswith (Str.upper unicode_upper (Str.strip (table_query table))) "SELECT"
          || Str.startswith (Str.upper unicode_upper (Str.strip (table_query table))) "DESCRIBE"
          = true) as Hkind by (by rewrite Hselect).
  by rewrite (select_not_show _ Hkind), Hkind.
Qed.

(** X9: the tabular text can be read back: when the cursor has a column,
    every row has a field, and no column name and no field text holds a
    comma or a line feed, the fields of the lines of the text that
    [read_resource] returns are the column names followed by the rows. *)
Theorem read_resource_parses_back (self : DatabaseServer)
    (uri_str table : string) (rest : list string) (st : PoolState)
    (res : ResultSet Field) :
  Str.startswith uri_str RES_PREFIX = true ->
  Str.split "/" (Str.drop (String.length RES_PREFIX) uri_str) = table :: rest ->
  driver (table_query table) = Return res ->
  column_names res <> [] ->
  Forall (fun row => row <> []) (rows res) ->
  Forall (fun c => has_char Str.LF c = false /\ has_char "," c = false)
    (column_names res) ->
  Forall (Forall (fun f => has_char Str.LF (str f) = false
                           /\ has_char "," (str f) = false)) (rows res) ->
  exists text,
    fst (readResource self uri_str st) = Return text
    /\ parse_table text
       = column_names res :: List.map (List.map str) (rows res).
Proof.
  intros Hprefix Hsplit Hdriver Hcols Hrows Hnames Hfields.
  exists (tabular_text str res). split.
  { by rewrite (read_resource_run _ _ _ _ _ _ _ Hprefix Hsplit), Hdriver. }
  unfold parse_table. rewrite lines_tabular_text.
  - cbn [List.map]. f_equal.
    + apply split_join; [done|]. eapply Forall_impl; [exact Hnames|].
      by intros c [_ Hc].
    + rewrite List.map_map. apply List.map_ext_in. intros row Hrow.
      rewrite Forall_forall in Hrows, Hfields.
      apply list_elem_of_In in Hrow.
      apply split_join.
      * specialize (Hrows _ Hrow). by destruct row.
      * apply Forall_map. eapply Forall_impl; [exact (Hfields _ Hrow)|].
        by intros f [_ Hf].
  - eapply Forall_impl; [exact Hnames|]. by intros c [Hc _].
  - eapply Forall_impl; [exact Hfields|]. intros row Hrow.
    eapply Forall_impl; [exact Hrow|]. by intros f [Hf _].
Qed.

End Resources.

Lemma listed_resources_are_readable_witness :
  fst (list_resources any_url0 (fun f : string => f) driver0 server0 initial)
  = Return [resource_with "iotdb://a/data" "a"; resource_with "iotdb://b/data" "b"]
  /\ fst (read_resource (fun f : string => f) driver0 server0
            "iotdb://a/data" initial)
     = Return "".
Proof.
  destruct (listed_resources_are_readable any_url0 (fun f : string => f) driver0
              server0 initial
              {| column_names := ["TableName"; "TTL(ms)"];
                 rows := [["a"; "INF"]; ["b"; "INF"]] |}
              [("a", ["INF"]); ("b", ["INF"])]
              ["iotdb://a/data"; "iotdb://b/data"])
    as [Hlist Hread]; [reflexivity | reflexivity | repeat constructor |].
  split; [exact Hlist|].
  rewrite (Hread ("a", ["INF"]) "iotdb://a/data" initial);
    [reflexivity | left; reflexivity | reflexivity | reflexivity].
Defined.

Lemma read_resource_as_tool_call_witness :
  call_tool (fun c : string => c) (fun f : string => f) SecurityGate.security_gate driver0 server0
    "execute_sql" {[ "query" := "SELECT * FROM sensors LIMIT 100" ]} initial
  = (Return [text_content ("time,temp" +:+ Str.NL +:+ "1,23.5")],
     snd (read_resource (fun f : string => f) driver0 server0
            "iotdb://sensors/data" initial)).
Proof.
  apply (read_resource_as_tool_call (fun c : string => c) (fun f : string => f)
           SecurityGate.security_gate driver0 server0 "sensors" initial);
    reflexivity.
Defined.

Lemma read_resource_parses_back_witness :
  exists text,
    fst (read_resource (fun f : string => f) driver0 server0
           "iotdb://sensors/data" initial) = Return text
    /\ parse_table text = [["time"; "temp"]; ["1"; "23.5"]].
Proof.
  apply (read_resource_parses_back (fun f : string => f) driver0 server0
           "iotdb://sensors/data" "sensors" ["data"] initial sensors);
    try reflexivity; try discriminate; repeat constructor; discriminate.
Defined.

(** ** Prompts and the tool catalog *)

Lemma replace_absent (old new s : string) :
  old <> "" -> ~ occurs old s -> Str.replace old new s = s.
Proof.
  intros Hold Hnone.
  eapply replaced_functional; [by apply replace_spec|by apply replaced_none].
Qed.

Lemma substitute_absent (items : list (string * string)) (s : string) :
  (forall key value, In (key, value) items -> ~ occurs (placeholder key) s) ->
  substitute items s = s.
Proof.
  induction items as [|[key value] items IH]; intros Hnone; [done|].
  cbn [substitute]. rewrite replace_absent.
  - apply IH. intros k v Hin. apply (Hnone k v). by right.
  - apply placeholder_not_empty.
  - apply (Hnone key value). by left.
Qed.

Lemma placeholder_occurs_braces (key s : string) :
  occurs (placeholder key) s -> occurs "{{ " s.
Proof.
  intros (pre & post & ->). exists pre, (key +:+ " }}" +:+ post).
  unfold placeholder. by rewrite !append_assoc.
Qed.

(** X10: arguments that the template does not use are skipped without an
    error: when no supplied name has its placeholder in the template, and
    so whenever the template holds no "{{ " at all, [get_prompt] returns
    the template as it is, whatever the arguments' values. *)
Theorem get_prompt_skips_unused_arguments (self : DatabaseServer)
    (name : string) (t : Template)
    (arguments : option (list (string * string))) :
  templates self !! name = Some t ->
  (forall key value, In (key, value) (items_of arguments) ->
                     ~ occurs (placeholder key) (tpl_template t))
  \/ ~ occurs "{{ " (tpl_template t) ->
  get_prompt self name arguments
  = Return {| gp_description := tpl_description t;
              gp_messages :=
                [ {| pm_role := "user";
                     pm_content := text_content (tpl_template t) |} ] |}.
Proof.
  intros Ht Hunused. rewrite (get_prompt_text _ _ _ _ Ht).
  rewrite substitute_absent; [done|].
  destruct Hunused as [Hunused|Hplain]; [done|].
  intros key value _ Hocc. by apply Hplain, (placeholder_occurs_braces key).
Qed.

Lemma occurs_contains (old s : string) :
  occurs old s <-> contains old s = true.
Proof.
  split.
  - intros (pre & post & ->). induction pre as [|c pre IH]; simpl.
    + pose proof (startswith_app old post) as Hstart.
      destruct (old +:+ post); simpl; [done|]. by rewrite Hstart.
    + rewrite IH. apply orb_true_r.
  - induction s as [|c s IH]; simpl.
    + intros [r Hr]%startswith_inv. by exists "", r.
    + intros [[r Hr]%startswith_inv|(pre & post & ->)%IH]%orb_true_iff.
      * by exists "", r.
      * by exists (String c pre), post.
Qed.

Lemma get_prompt_skips_unused_arguments_witness :
  get_prompt server1 "ask" (Some [("b", "X"); ("d", "{{ a }}")])
  = Return {| gp_description := "A question";
              gp_messages :=
                [ {| pm_role := "user";
                     pm_content :=
                       text_content "Tell me about {{ a }}, not {{ c }}." |} ] |}.
Proof.
  apply (get_prompt_skips_unused_arguments server1 "ask"
           {| tpl_template := "Tell me about {{ a }}, not {{ c }}.";
              tpl_description := "A question" |}
           (Some [("b", "X"); ("d", "{{ a }}")])); [reflexivity|].
  left. intros key value Hin Hocc%occurs_contains.
  destruct Hin as [[= <- <-]|[[= <- <-]|[]]];
    vm_compute in Hocc; discriminate Hocc.
Defined.

Lemma listed_tool (self : DatabaseServer) (t : Tool) :
  In t (list_tools self) ->
  tool_name t = "execute_sql" /\ required_parameters t = ["query"]
  /\ declared_parameters t = ["query"].
Proof. intros [<-|[]]. done. Qed.

Lemma after_leak_changes (st : PoolState) (sql : string) : after_leak st sql <> st.
Proof. intros H. apply (f_equal next_session) in H. simpl in H. lia. Qed.

Lemma after_release_changes (st : PoolState) (sql : string) :
  after_release st sql <> st.
Proof. intros H. apply (f_equal next_session) in H. simpl in H. lia. Qed.

Section Catalog.

Context {Field : Type}.
Variable unicode_upper : string -> string.
Variable str : Field -> string.
Variable security_gate : string -> bool * string.
Variable driver : string -> outcome (ResultSet Field).

Local Abbreviation callTool := (call_tool unicode_upper str security_gate driver).

(** X11: [call_tool] checks a call against what [list_tools] advertises:
    it ends with a [ValueError] before it touches the pool exactly when the
    tool name is not a listed one, or a parameter that the listed tool's
    schema requires is missing or empty. *)
Theorem tool_catalog_decides_validation (self : DatabaseServer) (name : string)
    (arguments : gmap string string) (st : PoolState) :
  (exists msg, callTool self name arguments st = (Raise (ValueError msg), st))
  <-> (~ exists t, In t (list_tools self) /\ tool_name t = name)
      \/ (exists t key,
            In t (list_tools self) /\ tool_name t = name
            /\ In key (required_parameters t)
            /\ (arguments !! key = None \/ arguments !! key = Some "")).
Proof.
  split.
  - intros [msg Hcall].
    destruct (String.eqb_spec name "execute_sql") as [->|Hname].
    + right. eexists _, "query". split; [by left|]. split; [done|].
      split; [by left|].
      destruct (arguments !! "query") as [query|] eqn:Hq; [|by left].
      destruct (decide (query = "")) as [->|Hne]; [by right|]. exfalso.
      destruct (fst (security_gate query)) eqn:Hgate.
      { by rewrite (call_tool_gate _ _ _ _ _ _ _ Hq Hne), Hgate in Hcall. }
      rewrite (call_tool_run _ _ _ _ _ _ _ _ Hq Hne Hgate) in Hcall.
      assert (forall A (o o' : outcome A) s, (o, s) = (o', st) -> s = st)
        as Hsnd by (by intros A o o' s [= _ ->]).
      destruct (driver query) as [res|e];
        [|by apply Hsnd, after_leak_changes in Hcall].
      destruct (Str.startswith _ "SHOW TABLES").
      * destruct (first_fields_loop _ _ _);
          [by apply Hsnd, after_release_changes in Hcall
          |by apply Hsnd, after_leak_changes in Hcall].
      * destruct (_ || _);
          [by apply Hsnd, after_release_changes in Hcall
          |by apply Hsnd, after_leak_changes in Hcall].
    + left. intros (t & Hin & Ht). apply listed_tool in Hin as [Hn _].
      congruence.
  - intros [Hunknown|(t & key & Hin & Ht & Hkey & Hmissing)].
    + exists ("Unknown tool: " +:+ name). unfold call_tool.
      destruct (String.eqb_spec name "execute_sql") as [->|Hname]; [|done].
      exfalso. apply Hunknown. eexists. split; [by left|done].
    + apply listed_tool in Hin as (Hn & Hreq & _).
      rewrite Hreq in Hkey. destruct Hkey as [<-|[]].
      rewrite Hn in Ht. subst name.
      exists "Query is required". unfold call_tool.
      by destruct Hmissing as [-> | ->].
Qed.

End Catalog.

Lemma tool_catalog_decides_validation_witness :
  exists msg,
    call_tool (fun c : string => c) (fun f : string => f) SecurityGate.security_gate driver0 server0
      "execute_sql" {[ "sql" := "SELECT 1" ]} initial
    = (Raise (ValueError msg), initial).
Proof.
  apply (tool_catalog_decides_validation (fun c : string => c) (fun f : string => f)
           SecurityGate.security_gate driver0 server0).
  right. eexists _, "query". split; [left; reflexivity|].
  split; [reflexivity|]. split; [left; reflexivity|]. left. reflexivity.
Defined.

(** [list_prompts] and [get_prompt] *)

Lemma list_prompts_loop_spec {Args : Type}
    (items : list (string * LoadedTemplate Args)) (prompts : list (Prompt Args)) :
  list_prompts_loop prompts items
  = prompts
    ++ List.map (fun nt => {| prompt_name := fst nt;
                              prompt_description := lt_description (snd nt);
                              prompt_arguments := lt_arguments (snd nt) |}) items.
Proof.
  revert prompts; induction items as [|[name t] items IH]; intros prompts; simpl.
  - by rewrite app_nil_r.
  - by rewrite IH, <- app_assoc.
Qed.

Lemma templates_of_lookup {Args : Type}
    (items : list (string * LoadedTemplate Args)) (name : string) :
  match templates_of items !! name with
  | Some t => exists lt, In (name, lt) items /\ t = template_of lt
  | None => ~ In name (List.map fst items)
  end.
Proof.
  induction items as [|[n lt] items IH].
  { unfold templates_of. cbn [List.map list_to_map foldr].
    rewrite lookup_empty. by intros []. }
  unfold templates_of in *. cbn [List.map list_to_map foldr fst snd].
  destruct (decide (n = name)) as [->|Hne].
  - rewrite lookup_insert_eq. exists lt. split; [by left|done].
  - rewrite lookup_insert_ne by done.
    destruct (list_to_map _ !! name) as [t|].
    + destruct IH as (lt' & Hin & ->). exists lt'. split; [by right|done].
    + intros [?|?]; done.
Qed.

Lemma templates_of_lookup_in {Args : Type}
    (items : list (string * LoadedTemplate Args)) (name : string)
    (lt : LoadedTemplate Args) :
  List.NoDup (List.map fst items) -> In (name, lt) items ->
  templates_of items !! name = Some (template_of lt).
Proof.
  induction items as [|[n lt'] items IH]; intros Hnodup Hin; [done|].
  unfold templates_of in *. cbn [List.map list_to_map foldr fst snd] in *.
  apply List.NoDup_cons_iff in Hnodup as [Hfresh Hnodup].
  destruct Hin as [[= -> ->]|Hin].
  - by rewrite lookup_insert_eq.
  - rewrite lookup_insert_ne; [by apply IH|].
    intros ->. apply Hfresh, in_map_iff. by exists (name, lt).
Qed.

(** X12: the prompts that [list_prompts] advertises are the prompts that
    [get_prompt] serves: [list_prompts] lists one prompt per template, in
    the order of the dict; [get_prompt] returns for a name exactly when a
    listed prompt has it, and raises otherwise; and for a listed prompt it
    returns the description that the listing shows. *)
Theorem listed_prompts_are_served {Args : Type} (self : DatabaseServer)
    (items : list (string * LoadedTemplate Args)) :
  templates self = templates_of items ->
  List.NoDup (List.map fst items) ->
  List.map prompt_name (list_prompts items) = List.map fst items
  /\ (forall name arguments,
        In name (List.map prompt_name (list_prompts items))
        <-> exists r, get_prompt self name arguments = Return r)
  /\ (forall p arguments,
        In p (list_prompts items) ->
        exists r, get_prompt self (prompt_name p) arguments = Return r
                  /\ gp_description r = prompt_description p).
Proof.
  intros Htemplates Hnodup.
  assert (List.map prompt_name (list_prompts items) = List.map fst items)
    as Hnames.
  { unfold list_prompts. rewrite list_prompts_loop_spec. simpl.
    rewrite List.map_map. by apply List.map_ext. }
  split; [exact Hnames|]. split.
  - intros name arguments. rewrite Hnames.
    pose proof (templates_of_lookup items name) as Hlookup.
    unfold get_prompt. rewrite Htemplates.
    destruct (templates_of items !! name) as [t|].
    + destruct Hlookup as (lt & Hin & _). split; [by eexists|].
      intros _. apply in_map_iff. by exists (name, lt).
    + split; [done|]. by intros [r Hr].
  - intros p arguments Hin. unfold list_prompts in Hin.
    rewrite list_prompts_loop_spec in Hin. simpl in Hin.
    apply in_map_iff in Hin as ([name lt] & <- & Hin). cbn [prompt_name fst snd].
    unfold get_prompt.
    rewrite Htemplates, (templates_of_lookup_in _ _ _ Hnodup Hin).
    by eexists.
Qed.

Lemma listed_prompts_are_served_witness :
  List.map prompt_name (list_prompts prompt_items) = ["ask"; "plain"]
  /\ exists r,
       get_prompt {| database := "db"; templates := templates_of prompt_items |}
         "plain" None = Return r
       /\ gp_description r = "No placeholder".
Proof.
  destruct (listed_prompts_are_served
              {| database := "db"; templates := templates_of prompt_items |}
              prompt_items) as (Hnames & _ & Hserved).
  - reflexivity.
  - simpl. repeat constructor; simpl; intuition discriminate.
  - split; [exact Hnames|].
    apply (Hserved {| prompt_name := "plain";
                      prompt_description := "No placeholder";
                      prompt_arguments := [] |} None).
    simpl. right. left. reflexivity.
Defined.


(** ** Invocations in a row *)

Section Sequences.

Context {Field : Type}.
Variable str : Field -> string.
Variable driver : string -> outcome (ResultSet Field).

Local Abbreviation readResource := (read_resource str driver).

(** X15: reading does not pile sessions up: on a pool in order,
    invocations of [read_resource] in a row for a URI whose statement the
    driver answers with a cursor leave the sessions in use as they were. *)
Theorem reads_leave_pool_unchanged (self : DatabaseServer)
    (uri_str table : string) (rest : list string) (res : ResultSet Field)
    (n : nat) (st : PoolState) :
  Str.startswith uri_str RES_PREFIX = true ->
  Str.split "/" (Str.drop (String.length RES_PREFIX) uri_str) = table :: rest ->
  driver (table_query table) = Return res ->
  pool_ok st ->
  in_use (run_times n (readResource self uri_str) st) = in_use st
  /\ next_session (run_times n (readResource self uri_str) st)
     = n + next_session st.
Proof.
  intros Hprefix Hsplit Hdriver.
  revert st; induction n as [|n IH]; intros st Hok; [done|].
  cbn [run_times].
  assert (snd (readResource self uri_str st)
          = after_release st (table_query table)) as Hstep
    by (by rewrite (read_resource_run _ _ _ _ _ _ _ Hprefix Hsplit), Hdriver).
  assert (~ In (next_session st) (in_use st)) as Hfresh.
  { destruct Hok as [_ Hbound]. intros Hin. rewrite Forall_forall in Hbound.
    apply list_elem_of_In, Hbound in Hin. lia. }
  destruct (IH (snd (readResource self uri_str st))) as [Huse Hnext].
  { eapply footprint_pool_ok; [exact Hok|]. rewrite Hstep. right.
    eexists. by right. }
  rewrite Huse, Hnext, Hstep.
  split; [by apply after_release_in_use|simpl; lia].
Qed.

End Sequences.

Lemma reads_leave_pool_unchanged_witness :
  in_use (run_times 3
            (read_resource (fun f : string => f) driver0 server0
               "iotdb://sensors/data") initial) = []
  /\ next_session
       (run_times 3
          (read_resource (fun f : string => f) driver0 server0
             "iotdb://sensors/data") initial) = 3 + 0.
Proof.
  apply (reads_leave_pool_unchanged (fun f : string => f) driver0 server0
           "iotdb://sensors/data" "sensors" ["data"] sensors 3 initial);
    try reflexivity.
  split; simpl; constructor.
Defined.
